(** * cpu client: session establishment, tunnel negotiation and terminal relay

    A shallow embedding of [cmds/cpu/cpu.go].  Go strings are byte strings and
    are modelled by [string] (one [ascii] per byte); byte arrays and slices by
    [list ascii]; Go's [error] interface by the inductive [error]; calls that
    leave the program (files, the ssh transport, the terminal, the random
    source) read their outcome from a [World] record and leave an [event] in
    the trace of the run.  The verbosity hook [v] is the no-op it is without
    [-d] and [-dump], so its calls leave nothing.  Goroutines are events of
    the run that starts them; the input relay [stdin] is modelled on its own,
    over the session it writes to. *)

From Stdlib Require Import Strings.String Strings.Ascii List ZArith NArith Lia Bool.
Import ListNotations.
Open Scope string_scope.

(** ** Go values *)

(** The two dynamic types of [error] the client distinguishes: [*ssh.ExitError]
    (tested by the type assertion in [main]) and everything else.  [msg] is
    what the value's [Error()] method returns. *)
Inductive error : Type :=
| ExitError (status : Z) (msg : string)
| errorString (msg : string).

Definition Error (e : error) : string :=
  match e with
  | ExitError _ msg => msg
  | errorString msg => msg
  end.

Definition quote_char : ascii := ascii_of_nat 34.
Definition backslash : ascii := ascii_of_nat 92.

(** The built-in [copy(dst, src)]: overwrites the first [min (len dst) (len src)]
    elements of [dst]. *)
Definition copy {A : Type} (dst src : list A) : list A :=
  firstn (length dst) src ++ skipn (length src) dst.

(** ** Package strings *)

(** [s[:m]] and [s[m+1:]] for [m := strings.Index(s, sep)], for a one-byte
    separator; [None] when [Index] returns -1. *)
Fixpoint cut (sep : ascii) (s : string) : option (string * string) :=
  match s with
  | EmptyString => None
  | String c rest =>
      if Ascii.eqb c sep then Some (EmptyString, rest)
      else match cut sep rest with
           | Some (before, after) => Some (String c before, after)
           | None => None
           end
  end.

(** [strings.Count(s, sep)] for a one-byte separator. *)
Fixpoint Count (sep : ascii) (s : string) : nat :=
  match s with
  | EmptyString => 0
  | String c rest => (if Ascii.eqb c sep then 1 else 0) + Count sep rest
  end.

(** The loop of [strings.genSplit]: [n] is the number of separators still to
    be cut at ([n--] has been done by the caller); the remainder of the string
    is the last element. *)
Fixpoint genSplit (sep : ascii) (n : nat) (s : string) : list string :=
  match n with
  | O => [s]
  | S k =>
      match cut sep s with
      | None => [s]
      | Some (before, after) => before :: genSplit sep k after
      end
  end.

(** [strings.Split(s, sep)]: [n = Count(s, sep) + 1] pieces. *)
Definition Split (s : string) (sep : ascii) : list string :=
  genSplit sep (Count sep s) s.

(** [strings.SplitN(s, sep, n)] for [n > 0]; [n = 0] returns nil. *)
Definition SplitN (s : string) (sep : ascii) (n : nat) : list string :=
  match n with
  | O => []
  | S k => genSplit sep k s
  end.

(** [strings.Join(elems, sep)]. *)
Definition Join (elems : list string) (sep : string) : string :=
  String.concat sep elems.

(** ** Package fmt: the verbs the client uses *)

Definition ldigits : string := "0123456789abcdef".

Definition digit_at (n : N) : ascii :=
  match String.get (N.to_nat n) ldigits with
  | Some c => c
  | None => zero
  end.

(** One byte as [digits[c>>4], digits[c&0xF]]. *)
Definition hex2 (c : ascii) : string :=
  String (digit_at (N.shiftr (N_of_ascii c) 4))
    (String (digit_at (N.land (N_of_ascii c) 15)) EmptyString).

Fixpoint hexBytes (b : list ascii) : string :=
  match b with
  | [] => EmptyString
  | c :: rest => hex2 c ++ hexBytes rest
  end.

Fixpoint padding (n : nat) (c : ascii) : string :=
  match n with
  | O => EmptyString
  | S k => String c (padding k c)
  end.

(** [fmt.Sprintf("%0<wid>x", b)] for a byte array or slice [b] ([fmtSbx]
    without the sharp, space and minus flags): two digits per byte, padded on
    the left up to [wid] characters. *)
Definition Sprintf_0x (wid : nat) (b : list ascii) : string :=
  let width := 2 * length b in
  padding (wid - width) "0"%char ++ hexBytes b.

(** ** The nonce *)

(** [type nonce [32]byte]. *)
Definition nonce := list ascii.
Definition nonce_len : nat := 32.

(** The zero value [nonce{}]. *)
Definition nonce_zero : nonce := repeat zero nonce_len.

(** [crypto/rand]'s reader: either it fails, or it fills the whole buffer. *)
Record Reader := {
  rd_err : option error;
  rd_byte : nat -> ascii
}.

Definition rand_Read (rr : Reader) (b : list ascii) : list ascii * option error :=
  match rd_err rr with
  | Some e => (b, Some e)
  | None => (map (rd_byte rr) (seq 0 (length b)), None)
  end.

Definition generateNonce (rr : Reader) : nonce * option error :=
  let b := repeat zero (nonce_len / 2) in
  match rand_Read rr b with
  | (_, Some err) => (nonce_zero, Some err)
  | (b, None) =>
      let n := nonce_zero in
      (copy n (list_ascii_of_string (Sprintf_0x 2 b)), None)
  end.

(** [func (n nonce) String() string]. *)
Definition nonce_String (n : nonce) : string := string_of_list_ascii n.

Definition is_lower_hex (c : ascii) : bool :=
  (Ascii.leb "0" c && Ascii.leb c "9") || (Ascii.leb "a" c && Ascii.leb c "f").

(** [%q] on a string is [strconv.Quote].  A byte below [utf8.RuneSelf] is a
    rune of its own: the quote and the backslash are backslashed, printable
    ASCII is copied, the usual control characters get their letter, every
    other one is written [\xNN]. *)
Definition escapeASCII (c : ascii) : string :=
  if Ascii.eqb c quote_char || Ascii.eqb c backslash then
    String backslash (String c EmptyString)
  else if Ascii.leb " " c && Ascii.ltb c (ascii_of_nat 127) then
    String c EmptyString
  else
    match nat_of_ascii c with
    | 7 => String backslash "a"
    | 8 => String backslash "b"
    | 12 => String backslash "f"
    | 10 => String backslash "n"
    | 13 => String backslash "r"
    | 9 => String backslash "t"
    | 11 => String backslash "v"
    | _ => String backslash "x" ++ hex2 c
    end.

(** The loop of [strconv.appendQuotedWith].  At a byte of value 128 or more
    the rune is decoded and escaped with the [unicode] tables; that part of
    the library is the function [wide], which returns the text appended for
    the rune at the head of its argument and the rune's width in bytes.
    [skip] counts the bytes of that rune still to be stepped over. *)
Fixpoint appendQuoted (wide : string -> string * nat) (skip : nat) (s : string)
  : string :=
  match s with
  | EmptyString => EmptyString
  | String c rest =>
      match skip with
      | S k => appendQuoted wide k rest
      | O =>
          if Ascii.ltb c (ascii_of_nat 128) then
            escapeASCII c ++ appendQuoted wide 0 rest
          else
            let (out, width) := wide s in
            out ++ appendQuoted wide (width - 1) rest
      end
  end.

Definition Quote (wide : string -> string * nat) (s : string) : string :=
  String quote_char (appendQuoted wide 0 s ++ String quote_char EmptyString).

(** ** The input relay *)

(** The remote end of the relay: the ssh session and its stdin pipe, which is
    a view of the session's channel.  [forwarded] is what the pipe accepted,
    in order; a [Write] fails once the session is closed or when the
    transport says so ([broken], by ordinal of the call). *)
Record Session := {
  forwarded : list ascii;
  closed : bool;
  writes : nat;
  broken : nat -> bool
}.

Definition newSession (broken : nat -> bool) : Session :=
  {| forwarded := []; closed := false; writes := 0; broken := broken |}.

(** A transport on which no write fails. *)
Definition healthy : nat -> bool := fun _ => false.

(** [w.Write(p)]: the session afterwards, and whether the call failed. *)
Definition Write (s : Session) (p : list ascii) : Session * bool :=
  if closed s || broken s (writes s) then
    ({| forwarded := forwarded s; closed := closed s;
        writes := S (writes s); broken := broken s |}, true)
  else
    ({| forwarded := forwarded s ++ p; closed := closed s;
        writes := S (writes s); broken := broken s |}, false).

(** [s.Close()]. *)
Definition Close (s : Session) : Session :=
  {| forwarded := forwarded s; closed := true;
     writes := writes s; broken := broken s |}.

(** The two flags of [stdin]. *)
Record relay := { newLine : bool; tilde : bool }.

Definition NORMAL : relay := {| newLine := false; tilde := false |}.
Definition AFTER_NEWLINE : relay := {| newLine := true; tilde := false |}.
Definition ESCAPE_ARMED : relay := {| newLine := false; tilde := true |}.

(** One turn of the loop after a successful read: go round again, or return
    from the function. *)
Inductive turn : Type :=
| Continue (st : relay) (s : Session)
| Return (s : Session).

Definition nl : ascii := "010"%char.
Definition cr : ascii := "013"%char.

(** [if _, err := w.Write(p); err != nil { return }], then [k]. *)
Definition write_or_return (s : Session) (p : list ascii) (k : Session -> turn)
  : turn :=
  match Write s p with
  | (s', true) => Return s'
  | (s', false) => k s'
  end.

(** The [switch b[0]] of [stdin]. *)
Definition stdin_switch (st : relay) (s : Session) (b : ascii) : turn :=
  let t := ["~"%char] in
  if Ascii.eqb b nl || Ascii.eqb b cr then
    let st := {| newLine := true; tilde := tilde st |} in
    write_or_return s [b] (fun s => Continue st s)
  else if Ascii.eqb b "~" then
    if newLine st then
      Continue {| newLine := false; tilde := true |} s
    else
      write_or_return s t (fun s => Continue st s)
  else if Ascii.eqb b "." then
    if tilde st then Return (Close s)
    else write_or_return s [b] (fun s => Continue st s)
  else
    let st := {| newLine := false; tilde := tilde st |} in
    if tilde st then
      write_or_return s t (fun s =>
        let st := {| newLine := newLine st; tilde := false |} in
        write_or_return s [b] (fun s => Continue st s))
    else
      write_or_return s [b] (fun s => Continue st s).

(** How the relay ended: the read failed (the [break] out of the loop, with
    the flags as they were), or a [return] from inside the switch. *)
Inductive relay_end : Type :=
| ReadFailed (st : relay)
| Returned.

Record relay_result := {
  session : Session;
  unread : list ascii;
  ending : relay_end
}.

(** The [for] loop of [stdin]; [r] is what the reader still holds, and a read
    from an exhausted reader fails. *)
Fixpoint stdin_loop (st : relay) (s : Session) (r : list ascii) : relay_result :=
  match r with
  | [] => {| session := s; unread := []; ending := ReadFailed st |}
  | b :: r' =>
      match stdin_switch st s b with
      | Continue st' s' => stdin_loop st' s' r'
      | Return s' => {| session := s'; unread := r'; ending := Returned |}
      end
  end.

Definition stdin (s : Session) (r : list ascii) : relay_result :=
  stdin_loop {| newLine := false; tilde := false |} s r.

(** ** The outside of the program *)

(** A public key is known by its wire encoding, which is what
    [ssh.FixedHostKey] compares. *)
Record PublicKey := { Marshal : string }.

(** A signer, by the private key it was parsed from. *)
Record Signer := { key_material : string }.

(** The two host-key callbacks of [golang.org/x/crypto/ssh] the client uses. *)
Inductive HostKeyCallback : Type :=
| InsecureIgnoreHostKey
| FixedHostKey (pk : PublicKey).

Inductive AuthMethod : Type :=
| PublicKeys (signer : Signer).

Record ClientConfig := {
  User : string;
  Auth : list AuthMethod;
  HostKey : HostKeyCallback
}.

(** The command-line flags, after [flag.Parse]. *)
Record Flags := {
  bin : string;
  hostKeyFile : string;
  keyFile : string;
  network : string;
  port : string;
  root : string;
  timeout9P : string
}.

(** What a run of the client meets outside itself. *)
Record World := {
  w_flags : Flags;
  w_args : list string;                     (* flag.Args() *)
  w_PrintDefaults : string;                 (* text of flag.PrintDefaults *)
  w_environ : list string;                  (* os.Environ() *)
  w_ReadFile : string -> string + error;    (* ioutil.ReadFile *)
  w_ParsePrivateKey : string -> Signer + error;
  w_ParsePublicKey : string -> PublicKey + error;
  w_ParseAuthorizedKey : string -> PublicKey + error;
  w_ParseDuration : string -> Z + error;    (* time.ParseDuration *)
  w_quoteWide : string -> string * nat;     (* strconv, runes above ASCII *)
  w_connect : string -> string -> PublicKey + error;
                                            (* the host key the remote presents *)
  w_auth : string -> list AuthMethod -> option error;
  w_Listen : string + error;                (* l.Addr().String() of cl.Listen *)
  w_rand : Reader;
  w_termiosNew : option error;
  w_Raw : option error;
  w_LookPath : string + error;
  w_NewSession : option error;
  w_Setenv : string -> string -> option error;
  w_RequestPty : option error;
  w_StdinPipe : option error;
  w_StdoutPipe : option error;
  w_StderrPipe : option error;
  w_Start : string -> option error;
  w_Wait : option error;
  w_GetTermios : option error;
  w_SetTermios : option error
}.

(** What the client does to the outside, in order. *)
Inductive event : Type :=
| EvGetTermios                              (* termios.GetTermios(0) *)
| EvListen (net addr : string)              (* cl.Listen requested *)
| EvGenerateNonce                           (* generateNonce() called *)
| EvGoSrv (addr root nonce : string) (deadline : Z)   (* go srv(...) *)
| EvRaw                                     (* t.Raw() succeeded: raw mode entered *)
| EvNewSession                              (* client.NewSession() requested *)
| EvSetenv (name value : string)            (* s.Setenv requested *)
| EvRequestPty                              (* session.RequestPty requested *)
| EvStart (cmd : string)                    (* session.Start(cmd) requested *)
| EvGoStdin                                 (* go stdin(session, i, os.Stdin) *)
| EvGoStdout                                (* go io.Copy(os.Stdout, o) *)
| EvGoStderr                                (* go io.Copy(os.Stderr, e) *)
| EvWait                                    (* session.Wait() returned *)
| EvSessionClose                            (* deferred session.Close() *)
| EvSet                                     (* deferred t.Set(r) *)
| EvSetTermios                              (* termios.SetTermios(0, t) *)
| EvLog (msg : string).                     (* package log *)

(** A computation either finishes with a value or ends the process
    ([os.Exit], reached directly or through [log.Fatal]); deferred calls do
    not run in the second case. *)
Inductive outcome (A : Type) : Type :=
| Done (a : A)
| Exited (code : Z).
Arguments Done {A} a.
Arguments Exited {A} code.

Definition run (A : Type) : Type := list event * outcome A.

Definition ret {A : Type} (a : A) : run A := ([], Done a).

Definition bind {A B : Type} (c : run A) (k : A -> run B) : run B :=
  match c with
  | (tr, Done a) => let (tr', o) := k a in ((tr ++ tr')%list, o)
  | (tr, Exited code) => (tr, Exited code)
  end.

Notation "x <- c ;; k" := (bind c (fun x => k))
  (at level 61, c at next level, right associativity).
Notation "c ;;; k" := (bind c (fun _ => k))
  (at level 61, right associativity).

Definition emit (e : event) : run unit := ([e], Done tt).

Definition os_Exit {A : Type} (code : Z) : run A := ([], Exited code).

(** [log.Fatal] and [log.Fatalf]: print, then [os.Exit(1)]. *)
Definition log_Fatal {A : Type} (msg : string) : run A :=
  emit (EvLog msg) ;;; os_Exit 1.

(** [defer d] in front of [body]: [d] runs when [body] returns. *)
Definition defer {A : Type} (d : run unit) (body : run A) : run A :=
  a <- body ;; d ;;; ret a.

Definition trace {A : Type} (c : run A) : list event := fst c.
Definition result {A : Type} (c : run A) : outcome A := snd c.

(** The status the process ends with: that of [os.Exit], or 0 when [main]
    returns. *)
Definition exit_status (c : run unit) : Z :=
  match result c with
  | Done _ => 0
  | Exited code => code
  end.

(** ** Environment and addresses *)

(** [os.LookupEnv] over the entries of [os.Environ()]: the first entry for
    the key. *)
Fixpoint LookupEnv (environ : list string) (key : string) : option string :=
  match environ with
  | [] => None
  | kv :: rest =>
      match cut "=" kv with
      | Some (k, v) => if String.eqb k key then Some v else LookupEnv rest key
      | None => LookupEnv rest key
      end
  end.

Definition Getenv (environ : list string) (key : string) : string :=
  match LookupEnv environ key with
  | Some v => v
  | None => EmptyString
  end.

(** [net.JoinHostPort]: a host with a colon in it is bracketed. *)
Definition JoinHostPort (host port : string) : string :=
  match cut ":" host with
  | Some _ => "[" ++ host ++ "]:" ++ port
  | None => host ++ ":" ++ port
  end.

(** ** Transport configuration and dial *)

(** What the callback answers for the key the remote presents. *)
Definition hostKeyCheck (cb : HostKeyCallback) (key : PublicKey) : option error :=
  match cb with
  | InsecureIgnoreHostKey => None
  | FixedHostKey pk =>
      if String.eqb (Marshal key) (Marshal pk) then None
      else Some (errorString "ssh: host key mismatch")
  end.

(** [ssh.Dial]: connect, check the host key through the callback, then
    authenticate the user. *)
Definition ssh_Dial (w : World) (n a : string) (c : ClientConfig) : option error :=
  match w_connect w n a with
  | inr err => Some err
  | inl hostkey =>
      match hostKeyCheck (HostKey c) hostkey with
      | Some err => Some (errorString ("ssh: handshake failed: " ++ Error err))
      | None => w_auth w (User c) (Auth c)
      end
  end.

Definition dial (w : World) (n a : string) (c : ClientConfig) : option error :=
  match ssh_Dial w n a c with
  | Some err => Some (errorString ("Failed to dial: " ++ Error err))
  | None => None
  end.

Definition config (w : World) (kf : string) : ClientConfig + error :=
  let cb := InsecureIgnoreHostKey in
  match w_ReadFile w kf with
  | inr err =>
      inr (errorString ("unable to read private key " ++ kf ++ ": " ++ Error err))
  | inl key =>
      match w_ParsePrivateKey w key with
      | inr err => inr (errorString ("ParsePrivateKey " ++ kf ++ ": " ++ Error err))
      | inl signer =>
          let hkf := hostKeyFile (w_flags w) in
          let cb' :=
            if negb (String.eqb hkf "") then
              match w_ReadFile w hkf with
              | inr err =>
                  inr (errorString
                         ("unable to read host key " ++ hkf ++ ": " ++ Error err))
              | inl hk =>
                  let pk :=
                    match w_ParsePublicKey w hk with
                    | inl pk => inl pk
                    | inr _ => w_ParseAuthorizedKey w hk
                    end in
                  match pk with
                  | inr err =>
                      inr (errorString
                             ("parse host key " ++ hkf ++ ": " ++ Error err))
                  | inl pk => inl (FixedHostKey pk)
                  end
              end
            else inl cb in
          match cb' with
          | inr err => inr err
          | inl cb =>
              inl {| User := Getenv (w_environ w) "USER";
                     Auth := [PublicKeys signer];
                     HostKey := cb |}
          end
      end
  end.

(** ** Launching the remote command *)

(** [%q] as the client's [Sprintf] calls use it. *)
Definition q (w : World) (s : string) : string := Quote (w_quoteWide w) s.

(** The body of the loop of [env], for the entries [vs] still to be set. *)
Fixpoint env_loop (w : World) (vs : list string) : run unit :=
  match vs with
  | [] => ret tt
  | v :: rest =>
      let env := SplitN v "=" 2 in
      let env := if Nat.eqb (length env) 1 then (env ++ [EmptyString])%list else env in
      let name := nth 0 env EmptyString in
      let value := nth 1 env EmptyString in
      emit (EvSetenv name value) ;;;
      match w_Setenv w name value with
      | Some err =>
          emit (EvLog ("Warning: s.Setenv(" ++ q w v ++ ", "
                         ++ q w (Getenv (w_environ w) v) ++ "): " ++ Error err))
      | None => ret tt
      end ;;;
      env_loop w rest
  end.

Definition env (w : World) (envs : list string) : run unit :=
  env_loop w (w_environ w ++ envs).

(** [shell]: raw mode with its deferred restoration, the session with its
    deferred close, the environment, the pseudo-terminal, the three pipes,
    the start of [cmd], the three relays and the wait.  The path found by
    [exec.LookPath] goes to [*bin], which nothing reads afterwards, the
    command line being built already; the pipes leave no event. *)
Definition shell (w : World) (cmd : string) (envs : list string)
  : run (option error) :=
  match w_termiosNew w with
  | Some err => ret (Some err)
  | None =>
  match w_Raw w with
  | Some err => ret (Some err)
  | None =>
  emit EvRaw ;;;
  defer (emit EvSet) (
  match (if String.eqb (bin (w_flags w)) ""
         then match w_LookPath w with inl _ => None | inr err => Some err end
         else None) with
  | Some err => ret (Some err)
  | None =>
  emit EvNewSession ;;;
  match w_NewSession w with
  | Some err => ret (Some err)
  | None =>
  defer (emit EvSessionClose) (
  env w envs ;;;
  emit EvRequestPty ;;;
  match w_RequestPty w with
  | Some err => log_Fatal ("request for pseudo terminal failed: " ++ Error err)
  | None =>
  match w_StdinPipe w with
  | Some err => ret (Some err)
  | None =>
  match w_StdoutPipe w with
  | Some err => ret (Some err)
  | None =>
  match w_StderrPipe w with
  | Some err => ret (Some err)
  | None =>
  emit (EvStart cmd) ;;;
  match w_Start w cmd with
  | Some err =>
      ret (Some (errorString ("Failed to run " ++ cmd ++ ": " ++ Error err)))
  | None =>
  emit EvGoStdin ;;;
  emit EvGoStdout ;;;
  emit EvGoStderr ;;;
  emit EvWait ;;;
  ret (w_Wait w)
  end end end end end) end end) end end.

(** ** The reverse tunnel and the client run *)

(** The block under [if wantNameSpace] in [runClient]: from the command line
    and environment built so far to the ones with the forwarded port and the
    nonce, or the error the block returns with. *)
Definition namespace (w : World) (cmd : string) (env : list string)
  : run (string * list string + error) :=
  match w_ParseDuration w (timeout9P (w_flags w)) with
  | inr err => ret (inr err)
  | inl deadline =>
  emit (EvListen "tcp" "127.0.0.1:0") ;;;
  match w_Listen w with
  | inr err => ret (inr (errorString ("First cl.Listen " ++ Error err)))
  | inl addr =>
  let ap := Split addr ":" in
  if Nat.eqb (length ap) 0 then
    ret (inr (errorString ("Can't find a port number in " ++ addr)))
  else
  let port9p := last ap EmptyString in
  emit EvGenerateNonce ;;;
  match generateNonce (w_rand w) with
  | (_, Some err) => log_Fatal ("Getting nonce: " ++ Error err)
  | (nonce, None) =>
  emit (EvGoSrv addr (root (w_flags w)) (nonce_String nonce) deadline) ;;;
  let cmd := cmd ++ " -port9p " ++ port9p in
  let entry := "CPUNONCE=" ++ nonce_String nonce in
  let env := (env ++ [entry])%list in
  ret (inl (cmd, env))
  end end end.

Definition wantNameSpace (w : World) : bool :=
  match LookupEnv (w_environ w) "CPU_NAMESPACE" with
  | Some n => negb (Nat.eqb (String.length n) 0)
  | None => true
  end.

Definition runClient (w : World) (host a : string) : run (option error) :=
  match config w (keyFile (w_flags w)) with
  | inr err => ret (Some err)
  | inl c =>
  match dial w (network (w_flags w)) (JoinHostPort host (port (w_flags w))) c with
  | Some err => ret (Some err)
  | None =>
  let env := [] in
  let cmd := bin (w_flags w) ++ " -remote -bin " ++ bin (w_flags w) in
  r <- (if wantNameSpace w then namespace w cmd env else ret (inl (cmd, env))) ;;
  match r with
  | inr err => ret (Some err)
  | inl (cmd, env) =>
      let cmd := cmd ++ " " ++ q w a in
      shell w cmd env
  end
  end end.

(** ** main *)

Definition usage {A : Type} (w : World) : run A :=
  log_Fatal ("Usage: cpu [options] host [shell command]:" ++ String nl EmptyString
               ++ w_PrintDefaults w).

(** The command [main] hands to [runClient]: the arguments after the host,
    or [$SHELL] when there are none. *)
Definition command (w : World) (rest : list string) : string :=
  let a := Join rest " " in
  if String.eqb a "" then Getenv (w_environ w) "SHELL" else a.

Definition main (w : World) : run unit :=
  match w_args w with
  | [] => usage w
  | host :: rest =>
  let a := command w rest in
  emit EvGetTermios ;;;
  match w_GetTermios w with
  | Some _ => log_Fatal "Getting Termios"
  | None =>
  err <- runClient w host a ;;
  deferred <-
    match err with
    | Some err =>
        let e := match err with ExitError status _ => status | _ => 1%Z end in
        emit (EvLog ("SSH error " ++ Error err)) ;;;
        ret (os_Exit e)
    | None => ret (ret tt)
    end ;;
  defer deferred (
    emit EvSetTermios ;;;
    match w_SetTermios w with
    | Some err => emit (EvLog (Error err))
    | None => ret tt
    end)
  end end.

(** ** Sample worlds *)

Definition sample_flags (hk : string) : Flags :=
  {| bin := "cpud"; hostKeyFile := hk; keyFile := "/home/u/.ssh/cpu_rsa";
     network := "tcp"; port := "23"; root := "/"; timeout9P := "100ms" |}.

(** A world where the key file parses, the host key file [/etc/hostkey] holds
    an authorized-key line for the key [K1], the remote presents [remote_key],
    and the remaining calls answer as the arguments say. *)
Definition sample_world (args environ : list string) (hk remote_key : string)
    (listen : string + error) (rand_err pty wait : option error) : World :=
  {| w_flags := sample_flags hk;
     w_args := args;
     w_PrintDefaults := "  -bin string";
     w_environ := environ;
     w_ReadFile := fun path =>
       if String.eqb path "/home/u/.ssh/cpu_rsa" then inl "PRIVATE"
       else if String.eqb path "/etc/hostkey" then inl "ssh-rsa K1 host"
       else inr (errorString ("open " ++ path ++ ": no such file or directory"));
     w_ParsePrivateKey := fun key =>
       if String.eqb key "PRIVATE" then inl {| key_material := key |}
       else inr (errorString "ssh: no key found");
     w_ParsePublicKey := fun _ => inr (errorString "ssh: short read");
     w_ParseAuthorizedKey := fun line =>
       if String.eqb line "ssh-rsa K1 host" then inl {| Marshal := "K1" |}
       else inr (errorString "ssh: no key found");
     w_ParseDuration := fun s =>
       if String.eqb s "100ms" then inl 100000000%Z
       else inr (errorString "time: invalid duration");
     w_quoteWide := fun _ => (String backslash "ufffd", 1);
     w_connect := fun _ _ => inl {| Marshal := remote_key |};
     w_auth := fun _ _ => None;
     w_Listen := listen;
     w_rand := {| rd_err := rand_err; rd_byte := fun i => ascii_of_nat (17 * i + 3) |};
     w_termiosNew := None;
     w_Raw := None;
     w_LookPath := inl "/bin/cpu";
     w_NewSession := None;
     w_Setenv := fun _ _ => None;
     w_RequestPty := pty;
     w_StdinPipe := None;
     w_StdoutPipe := None;
     w_StderrPipe := None;
     w_Start := fun _ => None;
     w_Wait := wait;
     w_GetTermios := None;
     w_SetTermios := None |}.

(** No user command, [SHELL=/bin/bash], namespace mode on, port 5640 granted. *)
Definition bash_world : World :=
  sample_world ["testhost"] ["SHELL=/bin/bash"; "USER=u"] "" "K1"
    (inl "127.0.0.1:5640") None None None.

(** ** Reading traces *)

(** The two calls that put the terminal back: the deferred [t.Set(r)] of
    [shell] and the [termios.SetTermios(0, t)] of [main]. *)
Definition is_restore (e : event) : bool :=
  match e with
  | EvSet | EvSetTermios => true
  | _ => false
  end.

Definition restores (tr : list event) : list event := filter is_restore tr.

(** The events of the reverse tunnel: the listen request, the nonce, the
    serving task. *)
Definition is_tunnel (e : event) : bool :=
  match e with
  | EvListen _ _ | EvGenerateNonce | EvGoSrv _ _ _ _ => true
  | _ => false
  end.

(** The [Setenv] requests of a trace, in order. *)
Fixpoint setenv_calls (tr : list event) : list (string * string) :=
  match tr with
  | [] => []
  | EvSetenv name value :: rest => (name, value) :: setenv_calls rest
  | _ :: rest => setenv_calls rest
  end.

(** The commands handed to [session.Start], in order. *)
Fixpoint started (tr : list event) : list string :=
  match tr with
  | [] => []
  | EvStart cmd :: rest => cmd :: started rest
  | _ :: rest => started rest
  end.

Definition has_byte (c : ascii) (s : string) : Prop :=
  In c (list_ascii_of_string s).

(** The two arguments [env] gives [Setenv] for the entry [v]: [env[0]] and
    [env[1]] after the split and the append. *)
Definition setenv_args (v : string) : string * string :=
  match cut "=" v with
  | Some (name, value) => (name, value)
  | None => (v, EmptyString)
  end.

(** What [shell] may leave in a trace when it runs [cmd]. *)
Definition shell_event (cmd : string) (e : event) : Prop :=
  match e with
  | EvRaw | EvNewSession | EvSetenv _ _ | EvRequestPty | EvGoStdin | EvGoStdout
  | EvGoStderr | EvWait | EvSessionClose | EvSet | EvLog _ => True
  | EvStart c => c = cmd
  | _ => False
  end.

(** The conditions under which [shell] gets as far as [session.Start]. *)
Definition launch_ok (w : World) : Prop :=
  w_termiosNew w = None /\ w_Raw w = None /\
  (bin (w_flags w) = "" -> exists p, w_LookPath w = inl p) /\
  w_NewSession w = None /\ w_RequestPty w = None /\
  w_StdinPipe w = None /\ w_StdoutPipe w = None /\ w_StderrPipe w = None.

(** The three ways a run of [shell] can look: it returns before the terminal
    is raw; it dies in [log.Fatal] on the pseudo-terminal request, with the
    terminal raw; or it returns with the deferred [t.Set(r)] as its last
    act. *)
Inductive shell_shape (w : World) : run (option error) -> Prop :=
| shape_cooked (o : option error) :
    shell_shape w ([], Done o)
| shape_fatal (body : list event) :
    w_RequestPty w <> None ->
    restores body = [] -> ~ In EvWait body ->
    shell_shape w (EvRaw :: body, Exited 1%Z)
| shape_restored (body : list event) (o : option error) :
    restores body = [] -> ~ In EvRaw body ->
    shell_shape w (((EvRaw :: body) ++ [EvSet])%list, Done o).

(** What [runClient] may leave in a trace before it calls [shell]. *)
Definition tunnel_event (e : event) : Prop :=
  match e with
  | EvListen _ _ | EvGenerateNonce | EvGoSrv _ _ _ _ | EvLog _ => True
  | _ => False
  end.

(** The status [main] passes to the deferred [os.Exit] for the error of
    [runClient]. *)
Definition status_of (err : error) : Z :=
  match err with
  | ExitError status _ => status
  | errorString _ => 1%Z
  end.

(** The command line [runClient] hands to [shell] for the user command [a]:
    the port flag is there when namespace mode is on and the listener was
    granted. *)
Definition remote_command (w : World) (a : string) : string :=
  let base := bin (w_flags w) ++ " -remote -bin " ++ bin (w_flags w) in
  (if wantNameSpace w then
     match w_Listen w with
     | inl addr => base ++ " -port9p " ++ last (Split addr ":") EmptyString
     | inr _ => base
     end
   else base) ++ " " ++ q w a.

(** The transport is configured and the dial succeeds. *)
Definition transport_ok (w : World) (host : string) : Prop :=
  exists c, config w (keyFile (w_flags w)) = inl c /\
            dial w (network (w_flags w)) (JoinHostPort host (port (w_flags w))) c = None.


(** ["/bin/bash"] between double quotes. *)
Definition quoted_bash : string :=
  String quote_char ("/bin/bash" ++ String quote_char EmptyString).

(** Namespace mode switched off: [CPU_NAMESPACE] is there and empty. *)
Definition bare_world : World :=
  sample_world ["testhost"; "ls"] ["SHELL=/bin/bash"; "CPU_NAMESPACE="] "" "K1"
    (inl "127.0.0.1:5640") None None None.

(** The remote command exits with status 3. *)
Definition failing_world : World :=
  sample_world ["testhost"; "false"] ["SHELL=/bin/bash"] "" "K1"
    (inl "127.0.0.1:5640") None None
    (Some (ExitError 3 "Process exited with status 3")).

(** A host key file is given and the remote presents another key. *)
Definition impostor_world : World :=
  sample_world ["testhost"] ["SHELL=/bin/bash"] "/etc/hostkey" "K2"
    (inl "127.0.0.1:5640") None None None.

(** The tunnel is not in the way: namespace mode is off, or the duration
    parses, the listener is granted and the nonce is read. *)
Definition tunnel_ok (w : World) : Prop :=
  wantNameSpace w = false \/
  exists deadline addr n,
    w_ParseDuration w (timeout9P (w_flags w)) = inl deadline /\
    w_Listen w = inl addr /\
    generateNonce (w_rand w) = (n, None).
(** ** Reading the relay *)

(** A session on which every write goes through: it is open and the
    transport refuses no call. *)
Definition sound (s : Session) : Prop :=
  closed s = false /\ forall i, broken s i = false.

(** The escape as typed: a newline or carriage return, later a [~], later a
    [.]; and what is left of it to type once the relay has seen the newline,
    or the newline and the [~]. *)
Definition has_dot (r : list ascii) : Prop :=
  exists c d, r = (c ++ "."%char :: d)%list.

Definition has_tilde_dot (r : list ascii) : Prop :=
  exists b c d, r = (b ++ "~"%char :: c ++ "."%char :: d)%list.

Definition has_escape (r : list ascii) : Prop :=
  exists a n b c d,
    (n = nl \/ n = cr) /\
    r = (a ++ n :: b ++ "~"%char :: c ++ "."%char :: d)%list.

Definition escape_left (st : relay) (r : list ascii) : Prop :=
  if tilde st then has_dot r
  else if newLine st then has_tilde_dot r
  else has_escape r.

(** The [~] the relay holds back while the escape is armed. *)
Definition held (st : relay) : nat := if tilde st then 1 else 0.

(** ** Reading hexadecimal text and quoted text *)

(** The value of a lowercase hexadecimal digit, and the byte two digits
    stand for. *)
Definition hexval (c : ascii) : N :=
  let n := N_of_ascii c in
  if N.ltb n 58 then n - 48 else n - 87.

Definition unhex2 (hi lo : ascii) : ascii :=
  ascii_of_N (16 * hexval hi + hexval lo).

Fixpoint unhex (l : list ascii) : list ascii :=
  match l with
  | hi :: lo :: rest => unhex2 hi lo :: unhex rest
  | _ => []
  end.

(** Bytes below [utf8.RuneSelf]. *)
Definition is_ascii (c : ascii) : bool := Ascii.ltb c (ascii_of_nat 128).

(** Printable ASCII: from the space to the tilde. *)
Definition is_printable (c : ascii) : bool :=
  Ascii.leb " " c && Ascii.ltb c (ascii_of_nat 127).

(** Printable ASCII that [%q] copies as it is: neither the double quote nor
    the backslash. *)
Definition is_plain (c : ascii) : bool :=
  is_printable c && negb (Ascii.eqb c quote_char) && negb (Ascii.eqb c backslash).

(** ** The one-shot command *)

(** [cmd]: a session of its own, closed on return, and [session.Run(s)],
    which is [Start] then [Wait].  [stdout] is what the remote command has
    written to the buffer by the time [Run] returns; it is handed back only
    when [Run] succeeds. *)
Definition cmd (w : World) (stdout : string) (s : string) : run (string + error) :=
  emit EvNewSession ;;;
  match w_NewSession w with
  | Some err => ret (inr (errorString ("Failed to create session: " ++ Error err)))
  | None =>
  defer (emit EvSessionClose) (
  emit (EvStart s) ;;;
  match w_Start w s with
  | Some err => ret (inr (errorString ("Failed to run " ++ s ++ ": " ++ Error err)))
  | None =>
  emit EvWait ;;;
  match w_Wait w with
  | Some err => ret (inr (errorString ("Failed to run " ++ s ++ ": " ++ Error err)))
  | None => ret (inl stdout)
  end end) end.

(** ** More ways to read a trace *)

Definition is_log (e : event) : bool :=
  match e with
  | EvLog _ => true
  | _ => false
  end.

(** Whether the remote refuses the variable of the entry [v]. *)
Definition refused (w : World) (v : string) : bool :=
  match w_Setenv w (fst (setenv_args v)) (snd (setenv_args v)) with
  | Some _ => true
  | None => false
  end.

(** The world [w] with another answer to [termios.SetTermios]. *)
Definition with_SetTermios (w : World) (r : option error) : World :=
  {| w_flags := w_flags w;
     w_args := w_args w;
     w_PrintDefaults := w_PrintDefaults w;
     w_environ := w_environ w;
     w_ReadFile := w_ReadFile w;
     w_ParsePrivateKey := w_ParsePrivateKey w;
     w_ParsePublicKey := w_ParsePublicKey w;
     w_ParseAuthorizedKey := w_ParseAuthorizedKey w;
     w_ParseDuration := w_ParseDuration w;
     w_quoteWide := w_quoteWide w;
     w_connect := w_connect w;
     w_auth := w_auth w;
     w_Listen := w_Listen w;
     w_rand := w_rand w;
     w_termiosNew := w_termiosNew w;
     w_Raw := w_Raw w;
     w_LookPath := w_LookPath w;
     w_NewSession := w_NewSession w;
     w_Setenv := w_Setenv w;
     w_RequestPty := w_RequestPty w;
     w_StdinPipe := w_StdinPipe w;
     w_StdoutPipe := w_StdoutPipe w;
     w_StderrPipe := w_StderrPipe w;
     w_Start := w_Start w;
     w_Wait := w_Wait w;
     w_GetTermios := w_GetTermios w;
     w_SetTermios := r |}.

(** A host key file that is there but holds no key. *)
Definition badkey_world : World :=
  sample_world ["testhost"] ["SHELL=/bin/bash"] "/home/u/.ssh/cpu_rsa" "K1"
    (inl "127.0.0.1:5640") None None None.

(** The remote refuses the reverse listener. *)
Definition nolisten_world : World :=
  sample_world ["testhost"] ["SHELL=/bin/bash"] "" "K1"
    (inr (errorString "ssh: tcpip-forward request denied by peer")) None None None.

(** The remote refuses the pseudo-terminal. *)
Definition nopty_world : World :=
  sample_world ["testhost"] ["SHELL=/bin/bash"] "" "K1"
    (inl "127.0.0.1:5640") None (Some (errorString "ssh: pty-req failed")) None.

(** What [main] may leave in a trace once the remote command is started. *)
Definition after_start (e : event) : Prop :=
  match e with
  | EvGoStdin | EvGoStdout | EvGoStderr | EvWait | EvSessionClose | EvSet
  | EvSetTermios | EvLog _ => True
  | _ => False
  end.

Definition not_start (e : event) : Prop :=
  match e with
  | EvStart _ => False
  | _ => True
  end.

(** ** Properties of the nonce *)

Lemma hex2_forallb (c : ascii) :
  forallb is_lower_hex (list_ascii_of_string (hex2 c)) = true.
Proof.
  destruct c as [[] [] [] [] [] [] [] []]; vm_compute; reflexivity.
Qed.

Lemma hex2_lower_hex (c : ascii) :
  Forall (fun d => is_lower_hex d = true) (list_ascii_of_string (hex2 c)).
Proof.
  apply Forall_forall. intros d Hd.
  exact (proj1 (forallb_forall _ _) (hex2_forallb c) d Hd).
Qed.

Lemma list_ascii_of_string_app (s t : string) :
  list_ascii_of_string (s ++ t) = (list_ascii_of_string s ++ list_ascii_of_string t)%list.
Proof.
  induction s as [|c s IH]; simpl; [reflexivity | now rewrite IH].
Qed.

Lemma hexBytes_lower_hex (b : list ascii) :
  Forall (fun d => is_lower_hex d = true) (list_ascii_of_string (hexBytes b)).
Proof.
  induction b as [|c b IH]; cbn [hexBytes].
  - constructor.
  - rewrite list_ascii_of_string_app. apply Forall_app. split.
    + apply hex2_lower_hex.
    + exact IH.
Qed.

Lemma hexBytes_length (b : list ascii) :
  length (list_ascii_of_string (hexBytes b)) = 2 * length b.
Proof.
  induction b as [|c b IH]; cbn [hexBytes]; [reflexivity|].
  rewrite list_ascii_of_string_app, length_app, IH. cbn [hex2 list_ascii_of_string length]. lia.
Qed.

Lemma string_of_list_ascii_length (l : list ascii) :
  String.length (string_of_list_ascii l) = length l.
Proof.
  induction l as [|c l IH]; simpl; [reflexivity | now rewrite IH].
Qed.

(** With a working random source the nonce is the hexadecimal text of the
    sixteen bytes read. *)
Lemma generateNonce_ok (rr : Reader) :
  rd_err rr = None ->
  generateNonce rr
  = (list_ascii_of_string (hexBytes (map (rd_byte rr) (seq 0 16))), None).
Proof.
  intros Hok. unfold generateNonce, rand_Read. rewrite Hok.
  change (length (repeat zero (nonce_len / 2))) with 16%nat.
  set (b := map (rd_byte rr) (seq 0 16)).
  assert (Hb : length b = 16%nat).
  { unfold b. now rewrite length_map, length_seq. }
  assert (Hlen : length (list_ascii_of_string (hexBytes b)) = 32%nat).
  { rewrite hexBytes_length, Hb. reflexivity. }
  cbv beta iota zeta. unfold Sprintf_0x. rewrite Hb.
  change (padding (2 - 2 * 16) "0"%char) with EmptyString.
  change (EmptyString ++ hexBytes b) with (hexBytes b).
  unfold copy. rewrite Hlen. change (length nonce_zero) with 32%nat.
  rewrite <- Hlen at 1. rewrite firstn_all.
  change (skipn 32 nonce_zero) with (@nil ascii). now rewrite app_nil_r.
Qed.

(** C1. Secret generator: when the random read succeeds the nonce, as a
    string, has exactly 32 characters, all of them lowercase hexadecimal
    digits; when the read fails the generator returns that error together
    with the zero nonce, not a secret built from anything else. *)
Theorem generateNonce_spec (rr : Reader) :
  (rd_err rr = None ->
     snd (generateNonce rr) = None /\
     String.length (nonce_String (fst (generateNonce rr))) = 32 /\
     Forall (fun c => is_lower_hex c = true)
       (list_ascii_of_string (nonce_String (fst (generateNonce rr))))) /\
  (forall e, rd_err rr = Some e ->
     generateNonce rr = (nonce_zero, Some e)).
Proof.
  split.
  - intros Hok. rewrite (generateNonce_ok rr Hok). cbn [fst snd].
    unfold nonce_String.
    rewrite list_ascii_of_string_of_list_ascii, string_of_list_ascii_length.
    split; [reflexivity|]. split; [|apply hexBytes_lower_hex].
    rewrite hexBytes_length, length_map, length_seq. reflexivity.
  - intros e He. unfold generateNonce, rand_Read. rewrite He. reflexivity.
Qed.

Lemma generateNonce_spec_witness :
  rd_err (w_rand bash_world) = None /\
  String.length (nonce_String (fst (generateNonce (w_rand bash_world)))) = 32.
Proof.
  split; [reflexivity|].
  apply (generateNonce_spec (w_rand bash_world)). reflexivity.
Defined.

(** ** Properties of the string functions *)

Lemma cut_Some (sep : ascii) (s before after : string) :
  cut sep s = Some (before, after) ->
  s = before ++ String sep after /\ ~ In sep (list_ascii_of_string before).
Proof.
  revert before after. induction s as [|c s IH]; intros before after H; simpl in H.
  - discriminate.
  - destruct (Ascii.eqb c sep) eqn:E.
    + apply Ascii.eqb_eq in E. subst c. inversion H; subst. simpl. auto.
    + destruct (cut sep s) as [[b' a']|]; [|discriminate].
      inversion H; subst. destruct (IH b' after eq_refl) as [-> Hn].
      split; [reflexivity|]. simpl. intros [->|Hin].
      * rewrite Ascii.eqb_refl in E. discriminate.
      * exact (Hn Hin).
Qed.

Lemma cut_None (sep : ascii) (s : string) :
  cut sep s = None <-> ~ In sep (list_ascii_of_string s).
Proof.
  induction s as [|c s IH]; simpl.
  - split; [intros _ [] | reflexivity].
  - destruct (Ascii.eqb c sep) eqn:E.
    + apply Ascii.eqb_eq in E. subst c. split; [discriminate|]. intros H. elim H. now left.
    + destruct (cut sep s) as [[b a]|].
      * split; [discriminate|]. intros H. exfalso.
        assert (Hs : ~ In sep (list_ascii_of_string s)) by (intros Hin; apply H; now right).
        apply IH in Hs. discriminate.
      * split; [|reflexivity]. intros _ [->|Hin].
        -- rewrite Ascii.eqb_refl in E. discriminate.
        -- destruct IH as [IH _]. exact (IH eq_refl Hin).
Qed.

Lemma string_app_assoc (a b c : string) : (a ++ b) ++ c = a ++ (b ++ c).
Proof.
  induction a as [|x a IH]; cbn [String.append]; [reflexivity | now rewrite IH].
Qed.

(** [genSplit] always returns at least one piece, so neither [Split] nor
    [SplitN] with a positive count returns an empty slice. *)
Lemma genSplit_nonempty (sep : ascii) (n : nat) (s : string) :
  genSplit sep n s <> [].
Proof.
  destruct n as [|k]; simpl; [discriminate|].
  destruct (cut sep s) as [[b a]|]; discriminate.
Qed.

Lemma Split_length_pos (s : string) (sep : ascii) :
  Nat.eqb (length (Split s sep)) 0 = false.
Proof.
  unfold Split. destruct (genSplit sep (Count sep s) s) eqn:E.
  - now apply genSplit_nonempty in E.
  - reflexivity.
Qed.

Lemma Split_no_separator (s : string) (sep : ascii) :
  ~ In sep (list_ascii_of_string s) -> Split s sep = [s].
Proof.
  intros H. apply cut_None in H. unfold Split.
  destruct (Count sep s); simpl; [reflexivity|]. now rewrite H.
Qed.

(** [SplitN v "=" 2] is the entry itself, or the text before the first [=]
    and everything after it. *)
Lemma SplitN_2 (v : string) (sep : ascii) :
  SplitN v sep 2 =
  match cut sep v with
  | Some (before, after) => [before; after]
  | None => [v]
  end.
Proof.
  unfold SplitN. simpl. destruct (cut sep v) as [[b a]|]; reflexivity.
Qed.

Lemma Count_app (sep : ascii) (x y : string) :
  Count sep (x ++ y) = Count sep x + Count sep y.
Proof.
  induction x as [|c x IH]; cbn [String.append Count]; [reflexivity|].
  rewrite IH. lia.
Qed.

Lemma cut_app (sep : ascii) (x y : string) :
  cut sep (x ++ y) =
  match cut sep x with
  | Some (before, after) => Some (before, after ++ y)
  | None =>
      match cut sep y with
      | Some (before, after) => Some (x ++ before, after)
      | None => None
      end
  end.
Proof.
  induction x as [|c x IH]; cbn [String.append cut].
  - destruct (cut sep y) as [[b a]|]; reflexivity.
  - destruct (Ascii.eqb c sep); [reflexivity|]. rewrite IH.
    destruct (cut sep x) as [[b a]|]; [reflexivity|].
    destruct (cut sep y) as [[b a]|]; reflexivity.
Qed.

Lemma genSplit_no_separator (sep : ascii) (n : nat) (s : string) :
  ~ has_byte sep s -> genSplit sep n s = [s].
Proof.
  intros H. apply cut_None in H. destruct n; cbn [genSplit]; [reflexivity|].
  now rewrite H.
Qed.

(** With enough cuts allowed, the last piece is the text after the last
    separator. *)
Lemma genSplit_last (sep : ascii) (n : nat) :
  forall s pre a,
    Count sep s <= n -> s = pre ++ String sep a -> ~ has_byte sep a ->
    last (genSplit sep n s) EmptyString = a.
Proof.
  induction n as [|k IH]; intros s pre a Hn -> Ha.
  - rewrite Count_app in Hn. cbn [Count] in Hn. rewrite Ascii.eqb_refl in Hn. lia.
  - cbn [genSplit]. rewrite cut_app. cbn [cut]. rewrite Ascii.eqb_refl.
    destruct (cut sep pre) as [[b r]|] eqn:E.
    + apply cut_Some in E. destruct E as [-> _].
      assert (Hk : Count sep (r ++ String sep a) <= k).
      { rewrite !Count_app in Hn. cbn [Count] in Hn. rewrite Ascii.eqb_refl in Hn.
        rewrite Count_app. cbn [Count]. rewrite Ascii.eqb_refl. lia. }
      specialize (IH (r ++ String sep a) r a Hk eq_refl Ha).
      destruct (genSplit sep k (r ++ String sep a)) eqn:G.
      * now apply genSplit_nonempty in G.
      * exact IH.
    + rewrite (genSplit_no_separator sep k a Ha). reflexivity.
Qed.

(** The port [runClient] takes from a [host:port] address is the text after
    the last colon. *)
Lemma Split_last_segment (host p : string) :
  ~ has_byte ":" p ->
  last (Split (host ++ ":" ++ p) ":") EmptyString = p.
Proof.
  intros Hp. unfold Split.
  apply (genSplit_last ":" _ _ host p); [apply Nat.le_refl | reflexivity | exact Hp].
Qed.

(** ** The input relay *)

(** In [ESCAPE_ARMED], a byte that is none of newline, carriage return, [~]
    and [.] sends the held [~], then the byte, and disarms. *)
Lemma stdin_switch_armed_default (s : Session) (b : ascii) :
  Ascii.eqb b nl = false -> Ascii.eqb b cr = false ->
  Ascii.eqb b "~" = false -> Ascii.eqb b "." = false ->
  closed s = false -> broken s (writes s) = false -> broken s (S (writes s)) = false ->
  stdin_switch ESCAPE_ARMED s b
  = Continue NORMAL
      {| forwarded := (forwarded s ++ ["~"%char]) ++ [b]; closed := false;
         writes := S (S (writes s)); broken := broken s |}.
Proof.
  intros H1 H2 H3 H4 Hc Hw1 Hw2.
  unfold stdin_switch. rewrite H1, H2, H3, H4. cbn [orb tilde ESCAPE_ARMED].
  unfold write_or_return. unfold Write at 1. rewrite Hc, Hw1. cbn [orb].
  unfold Write. cbn [closed writes broken forwarded]. rewrite Hw2. reflexivity.
Qed.

(** The sequence a, newline, [~], [~], b comes out as it went in, and the
    relay is back in [NORMAL] when the input ends. *)
Lemma stdin_tilde_tilde :
  let r := stdin (newSession healthy) ["a"%char; nl; "~"%char; "~"%char; "b"%char] in
  forwarded (session r) = ["a"%char; nl; "~"%char; "~"%char; "b"%char] /\
  closed (session r) = false /\
  ending r = ReadFailed NORMAL.
Proof. repeat split. Qed.

(** C2. In [ESCAPE_ARMED] the newline and the [~] do not take the path of the
    other bytes: a newline is forwarded alone and leaves the escape armed,
    with the held [~] coming out only after it; a [~] is forwarded once and
    leaves the escape armed, so that a following [.] ends the session. *)
Theorem stdin_armed_newline_tilde :
  stdin_switch ESCAPE_ARMED (newSession healthy) nl
    = Continue {| newLine := true; tilde := true |}
        {| forwarded := [nl]; closed := false; writes := 1; broken := healthy |} /\
  stdin_switch ESCAPE_ARMED (newSession healthy) "~"
    = Continue ESCAPE_ARMED
        {| forwarded := ["~"%char]; closed := false; writes := 1; broken := healthy |} /\
  forwarded (session (stdin (newSession healthy) [nl; "~"%char; nl; "x"%char]))
    = [nl; nl; "~"%char; "x"%char] /\
  stdin (newSession healthy) [nl; "~"%char; "~"%char; "."%char; "x"%char]
    = {| session := {| forwarded := [nl; "~"%char]; closed := true;
                       writes := 2; broken := healthy |};
         unread := ["x"%char];
         ending := Returned |}.
Proof. repeat split. Qed.

(** C7. On a fresh session whose first two writes succeed, the input a,
    newline, [~], [.] followed by anything forwards a and the newline only,
    closes the session that carries the remote stdin, and returns with the
    rest of the input unread. *)
Theorem stdin_escape_dot (fails : nat -> bool) (rest : list ascii) :
  fails 0 = false -> fails 1 = false ->
  stdin (newSession fails) ("a"%char :: nl :: "~"%char :: "."%char :: rest)
  = {| session := {| forwarded := ["a"%char; nl]; closed := true;
                     writes := 2; broken := fails |};
       unread := rest;
       ending := Returned |}.
Proof.
  intros H0 H1. unfold stdin. cbn [stdin_loop].
  assert (Ha : stdin_switch NORMAL (newSession fails) "a"
               = Continue NORMAL {| forwarded := ["a"%char]; closed := false;
                                    writes := 1; broken := fails |}).
  { unfold stdin_switch, write_or_return, Write. cbn. now rewrite H0. }
  fold NORMAL. rewrite Ha.
  assert (Hn : stdin_switch NORMAL {| forwarded := ["a"%char]; closed := false;
                                      writes := 1; broken := fails |} nl
               = Continue AFTER_NEWLINE {| forwarded := ["a"%char; nl]; closed := false;
                                           writes := 2; broken := fails |}).
  { unfold stdin_switch, write_or_return, Write. cbn. now rewrite H1. }
  rewrite Hn. reflexivity.
Qed.

Lemma stdin_escape_dot_witness :
  healthy 0 = false /\ healthy 1 = false /\
  unread (stdin (newSession healthy) ["a"%char; nl; "~"%char; "."%char; "b"%char])
    = ["b"%char].
Proof.
  split; [reflexivity | split; [reflexivity|]].
  rewrite (stdin_escape_dot healthy ["b"%char]); reflexivity.
Defined.

(** ** Traces of sequenced computations *)

Lemma trace_bind {A B : Type} (c : run A) (k : A -> run B) :
  trace (bind c k) =
  (trace c ++ match result c with Done a => trace (k a) | Exited _ => [] end)%list.
Proof.
  destruct c as [tr [a|code]]; simpl.
  - destruct (k a); reflexivity.
  - now rewrite app_nil_r.
Qed.

Lemma result_bind {A B : Type} (c : run A) (k : A -> run B) :
  result (bind c k) =
  match result c with Done a => result (k a) | Exited code => Exited code end.
Proof.
  destruct c as [tr [a|code]]; simpl; [destruct (k a)|]; reflexivity.
Qed.

Lemma trace_defer_emit {A : Type} (e : event) (body : run A) :
  trace (defer (emit e) body) =
  (trace body ++ match result body with Done _ => [e] | Exited _ => [] end)%list.
Proof.
  destruct body as [tr [a|code]]; simpl; [reflexivity | now rewrite app_nil_r].
Qed.

Lemma result_defer_emit {A : Type} (e : event) (body : run A) :
  result (defer (emit e) body) = result body.
Proof. destruct body as [tr [a|code]]; reflexivity. Qed.

Lemma run_eta {A : Type} (c : run A) : c = (trace c, result c).
Proof. now destruct c. Qed.

(** ** Environment propagation *)

Lemma env_loop_result (w : World) (vs : list string) :
  result (env_loop w vs) = Done tt.
Proof.
  induction vs as [|v vs IH]; [reflexivity|].
  cbn [env_loop]. rewrite !result_bind. cbn [emit result snd].
  destruct (w_Setenv w _ _); cbn [emit ret result snd]; exact IH.
Qed.

Lemma env_loop_trace (w : World) (vs : list string) :
  Forall (fun e => match e with EvSetenv _ _ | EvLog _ => True | _ => False end)
    (trace (env_loop w vs)) /\
  setenv_calls (trace (env_loop w vs)) = map setenv_args vs.
Proof.
  induction vs as [|v vs [IHa IHb]]; [split; [constructor | reflexivity]|].
  cbn [env_loop map]. rewrite SplitN_2. unfold setenv_args at 1.
  destruct (cut "=" v) as [[name value]|]; cbn [length Nat.eqb nth app];
    rewrite !trace_bind; cbn [emit trace result fst snd app];
    (destruct (w_Setenv w _ _); cbn [emit ret trace result fst snd app map];
     (split; [repeat constructor; exact IHa | cbn [setenv_calls]; now rewrite IHb])).
Qed.

Lemma env_result (w : World) (envs : list string) : result (env w envs) = Done tt.
Proof. apply env_loop_result. Qed.

Lemma env_trace (w : World) (envs : list string) :
  Forall (fun e => match e with EvSetenv _ _ | EvLog _ => True | _ => False end)
    (trace (env w envs)).
Proof. apply env_loop_trace. Qed.

(** C10. Every entry of the propagated environment, the local one followed
    by the extra entries, is set on the remote split at its first [=]: the
    name is the text before it and holds no [=], the value is all the text
    after it; an entry without [=] is set whole as the name with the empty
    value. *)
Theorem env_splits_at_first_equals (w : World) (envs : list string) :
  Forall2
    (fun v call =>
       (has_byte "=" v ->
          v = fst call ++ "=" ++ snd call /\ ~ has_byte "=" (fst call)) /\
       (~ has_byte "=" v -> call = (v, EmptyString)))
    (w_environ w ++ envs)
    (setenv_calls (trace (env w envs))).
Proof.
  unfold env. destruct (env_loop_trace w (w_environ w ++ envs)) as [_ ->].
  induction (w_environ w ++ envs)%list as [|v vs IH]; cbn [map]; constructor; [|exact IH].
  unfold setenv_args, has_byte. destruct (cut "=" v) as [[name value]|] eqn:E.
  - apply cut_Some in E. destruct E as [-> Hn]. split.
    + intros _. split; [reflexivity | exact Hn].
    + intros H. exfalso. apply H. rewrite list_ascii_of_string_app.
      apply in_or_app. right. now left.
  - apply cut_None in E. split; [intros H; contradiction | reflexivity].
Qed.

(** ** The remote launch *)


(** ** The remote launch *)

Lemma trace_log_Fatal {A : Type} (msg : string) :
  trace (@log_Fatal A msg) = [EvLog msg].
Proof. reflexivity. Qed.

Lemma result_log_Fatal {A : Type} (msg : string) :
  result (@log_Fatal A msg) = Exited 1%Z.
Proof. reflexivity. Qed.

Ltac run_step :=
  rewrite ?trace_bind, ?result_bind, ?trace_defer_emit, ?result_defer_emit,
    ?env_result, ?trace_log_Fatal, ?result_log_Fatal;
  cbn [emit ret os_Exit trace result fst snd app].

(** Case analysis on the answers [shell] gets, in the order it asks. *)
Ltac shell_cases w cmd :=
  unfold shell;
  destruct (w_termiosNew w) eqn:?;
  [| destruct (w_Raw w) eqn:?;
     [| destruct (String.eqb (bin (w_flags w)) "") eqn:?;
        [destruct (w_LookPath w) eqn:? |];
        (destruct (w_NewSession w) eqn:?;
         [| destruct (w_RequestPty w) eqn:?;
            [| destruct (w_StdinPipe w) eqn:?;
               [| destruct (w_StdoutPipe w) eqn:?;
                  [| destruct (w_StderrPipe w) eqn:?;
                     [| destruct (w_Start w cmd) eqn:? ]]]]])]];
  repeat run_step.

Lemma env_shell_events (w : World) (cmd : string) (envs : list string) :
  Forall (shell_event cmd) (trace (env w envs)).
Proof.
  eapply Forall_impl; [|apply env_trace]. intros [] H; try exact I; contradiction.
Qed.

Lemma restores_env (w : World) (envs : list string) :
  restores (trace (env w envs)) = [].
Proof.
  unfold restores. pose proof (env_trace w envs) as H.
  induction H as [|e tr He _ IH]; [reflexivity|].
  cbn [filter]. destruct e; try contradiction; exact IH.
Qed.

Lemma env_no_event (w : World) (envs : list string) (e : event) :
  match e with EvSetenv _ _ | EvLog _ => False | _ => True end ->
  ~ In e (trace (env w envs)).
Proof.
  intros He Hin. pose proof (env_trace w envs) as H.
  rewrite Forall_forall in H. specialize (H e Hin). destruct e; contradiction.
Qed.

(** Every event of [shell] is one of its own, and the only command it starts
    is the one it was given. *)
Lemma shell_events (w : World) (cmd : string) (envs : list string) :
  Forall (shell_event cmd) (trace (shell w cmd envs)).
Proof.
  shell_cases w cmd;
    repeat first [ apply Forall_nil
                 | apply Forall_cons; [cbn; trivial|]
                 | apply env_shell_events
                 | apply Forall_app; split ].
Qed.


Lemma filter_restore_env (w : World) (envs : list string) :
  filter is_restore (trace (env w envs)) = [].
Proof. apply restores_env. Qed.

Ltac no_restores :=
  unfold restores; cbn [filter is_restore];
  repeat (rewrite ?filter_app, ?filter_restore_env; cbn [filter is_restore app]);
  reflexivity.

Ltac not_in :=
  let Hin := fresh "Hin" in
  intros Hin; cbn [In] in Hin; rewrite ?in_app_iff in Hin; cbn [In] in Hin;
  repeat match goal with
         | H : _ \/ _ |- _ => destruct H
         | H : False |- _ => destruct H
         | H : _ = _ |- _ => discriminate H
         | H : In _ (trace (env _ _)) |- _ => revert H; apply env_no_event; exact I
         end.

Lemma shell_has_shape (w : World) (cmd : string) (envs : list string) :
  shell_shape w (shell w cmd envs).
Proof.
  rewrite (run_eta (shell w cmd envs)).
  shell_cases w cmd;
    first [ apply shape_cooked
          | apply (shape_restored w [])
          | apply (shape_restored w [EvNewSession])
          | apply (shape_restored w (EvNewSession :: _))
          | apply (shape_fatal w (EvNewSession :: _)) ];
    first [ congruence | no_restores | solve [not_in] ].
Qed.


(** When nothing on the way refuses, [shell] sets the environment, asks for
    the terminal, starts the command and, if it started, waits for it. *)
Lemma shell_launch (w : World) (cmd : string) (envs : list string) :
  launch_ok w ->
  shell w cmd envs =
  ((EvRaw :: EvNewSession :: trace (env w envs) ++
      EvRequestPty :: EvStart cmd ::
      match w_Start w cmd with
      | Some _ => []
      | None => [EvGoStdin; EvGoStdout; EvGoStderr; EvWait]
      end ++ [EvSessionClose; EvSet])%list,
   Done match w_Start w cmd with
        | Some err => Some (errorString ("Failed to run " ++ cmd ++ ": " ++ Error err))
        | None => w_Wait w
        end).
Proof.
  intros (H1 & H2 & H3 & H4 & H5 & H6 & H7 & H8).
  rewrite (run_eta (shell w cmd envs)).
  shell_cases w cmd; try congruence.
  all: try (match goal with
            | E : String.eqb _ _ = true |- _ =>
                apply String.eqb_eq in E; destruct (H3 E); congruence
            end).
  all: rewrite <- ?app_assoc; cbn [app]; reflexivity.
Qed.

(** ** The client run *)

(** With the tunnel granted, the block adds the port flag and the nonce
    entry, after asking for the listener and starting the serving task. *)
Lemma namespace_granted (w : World) (cmd : string) (env : list string)
    (deadline : Z) (addr : string) (n : nonce) :
  w_ParseDuration w (timeout9P (w_flags w)) = inl deadline ->
  w_Listen w = inl addr ->
  generateNonce (w_rand w) = (n, None) ->
  namespace w cmd env =
  ([EvListen "tcp" "127.0.0.1:0"; EvGenerateNonce;
    EvGoSrv addr (root (w_flags w)) (nonce_String n) deadline],
   Done (inl (cmd ++ " -port9p " ++ last (Split addr ":") EmptyString,
              (env ++ [("CPUNONCE=" ++ nonce_String n)%string])%list))).
Proof.
  intros Hd Hl Hn. unfold namespace. rewrite Hd, Hl, Split_length_pos, Hn.
  reflexivity.
Qed.

(** The block never answers that it found no port: whatever the address,
    its result is the extended command line, the error of the duration or of
    the listen request, or the death of the process on the nonce. *)
Lemma namespace_cases (w : World) (cmd : string) (env : list string) :
  Forall tunnel_event (trace (namespace w cmd env)) /\
  match result (namespace w cmd env) with
  | Done (inl (cmd', env')) =>
      exists addr n,
        w_Listen w = inl addr /\
        cmd' = cmd ++ " -port9p " ++ last (Split addr ":") EmptyString /\
        env' = (env ++ [("CPUNONCE=" ++ nonce_String n)%string])%list
  | Done (inr err) =>
      w_ParseDuration w (timeout9P (w_flags w)) = inr err \/
      exists e, w_Listen w = inr e /\ err = errorString ("First cl.Listen " ++ Error e)
  | Exited code => code = 1%Z
  end.
Proof.
  unfold namespace.
  destruct (w_ParseDuration w (timeout9P (w_flags w))) as [deadline|err] eqn:Hd.
  2: { split; [constructor | now left]. }
  destruct (w_Listen w) as [addr|e] eqn:Hl.
  2: { split; [repeat constructor | right; now exists e]. }
  rewrite Split_length_pos.
  destruct (generateNonce (w_rand w)) as [n [err|]] eqn:Hn.
  - split; [repeat constructor | reflexivity].
  - split; [repeat constructor | now exists addr, n].
Qed.

(** A run of [runClient] is a tunnel prefix followed by a run of [shell] on
    the command line built for the user command, or a tunnel prefix ending in
    an error or in the death of the process. *)
Lemma runClient_form (w : World) (host a : string) :
  exists pre, Forall tunnel_event pre /\
    ((exists o, runClient w host a = (pre, o) /\
                match o with
                | Done None => False
                | Done (Some _) => True
                | Exited code => code = 1%Z
                end) \/
     (exists env,
        runClient w host a
        = ((pre ++ trace (shell w (remote_command w a) env))%list,
           result (shell w (remote_command w a) env)))).
Proof.
  unfold runClient, remote_command.
  destruct (config w (keyFile (w_flags w))) as [c|err].
  2: { exists []. split; [constructor|]. left. now exists (Done (Some err)). }
  destruct (dial w _ _ c) as [err|].
  { exists []. split; [constructor|]. left. now exists (Done (Some err)). }
  destruct (wantNameSpace w).
  - destruct (namespace_cases w (bin (w_flags w) ++ " -remote -bin " ++ bin (w_flags w)) [])
      as [Htr Hres].
    destruct (namespace w _ []) as [pre [[[cmd env]|err]|code]]; cbn [trace result fst snd] in *.
    + exists pre. split; [exact Htr|]. right.
      destruct Hres as (addr & n & Hl & -> & _). rewrite Hl.
      exists env. cbn [bind].
      now rewrite (run_eta (shell w _ env)) at 1.
    + exists pre. split; [exact Htr|]. left. exists (Done (Some err)).
      cbn [bind ret]. now rewrite app_nil_r.
    + exists pre. split; [exact Htr|]. left. now exists (Exited code).
  - exists []. split; [constructor|]. right.
    exists []. cbn [bind ret app]. now rewrite (run_eta (shell w _ [])) at 1.
Qed.

(** The only command a run of [runClient] starts is the one built for the
    user command. *)
Lemma runClient_started (w : World) (host a cmd : string) :
  In (EvStart cmd) (trace (runClient w host a)) -> cmd = remote_command w a.
Proof.
  destruct (runClient_form w host a) as (pre & Hpre & [(o & -> & _) | (env & ->)]);
    cbn [trace fst]; rewrite Forall_forall in Hpre; intros Hin.
  - apply Hpre in Hin. contradiction.
  - apply in_app_or in Hin. destruct Hin as [Hin|Hin].
    + apply Hpre in Hin. contradiction.
    + pose proof (shell_events w (remote_command w a) env) as Hs.
      rewrite Forall_forall in Hs. exact (Hs _ Hin).
Qed.

(** With the transport up and the tunnel granted, [runClient] is the three
    tunnel events followed by [shell] on the command line with the port flag
    and on the nonce entry. *)
Lemma runClient_tunnel (w : World) (host a : string)
    (deadline : Z) (addr : string) (n : nonce) :
  transport_ok w host ->
  wantNameSpace w = true ->
  w_ParseDuration w (timeout9P (w_flags w)) = inl deadline ->
  w_Listen w = inl addr ->
  generateNonce (w_rand w) = (n, None) ->
  runClient w host a =
  (emit (EvListen "tcp" "127.0.0.1:0") ;;; emit EvGenerateNonce ;;;
   emit (EvGoSrv addr (root (w_flags w)) (nonce_String n) deadline) ;;;
   shell w (remote_command w a) ["CPUNONCE=" ++ nonce_String n]).
Proof.
  intros (c & Hc & Hd) Hns Hdur Hl Hn. unfold runClient, remote_command.
  rewrite Hc, Hd, Hns, Hl. cbv zeta.
  rewrite (namespace_granted w _ [] deadline addr n Hdur Hl Hn).
  cbn [bind emit app]. destruct (shell w _ _). reflexivity.
Qed.

(** With the transport up and namespace mode off, [runClient] is [shell] on
    the bare command line and on no extra entry. *)
Lemma runClient_no_tunnel (w : World) (host a : string) :
  transport_ok w host ->
  wantNameSpace w = false ->
  runClient w host a = shell w (remote_command w a) [].
Proof.
  intros (c & Hc & Hd) Hns. unfold runClient, remote_command.
  rewrite Hc, Hd, Hns. cbn [bind ret app]. destruct (shell w _ _). reflexivity.
Qed.

(** ** main *)

(** [main] past the argument check and the terminal snapshot: the run of
    [runClient], then, unless the process died, the log of the error, the
    restoration of the terminal and the deferred exit. *)
Lemma main_unfold (w : World) (host : string) (rest : list string) :
  w_args w = host :: rest -> w_GetTermios w = None ->
  main w =
  let r := runClient w host (command w rest) in
  ((EvGetTermios :: trace r ++
     match result r with
     | Exited _ => []
     | Done err =>
         match err with
         | Some err => [EvLog ("SSH error " ++ Error err)]
         | None => []
         end ++
         EvSetTermios ::
         match w_SetTermios w with
         | Some e => [EvLog (Error e)]
         | None => []
         end
     end)%list,
   match result r with
   | Exited code => Exited code
   | Done None => Done tt
   | Done (Some err) => Exited (status_of err)
   end).
Proof.
  intros Ha Hg. unfold main. rewrite Ha, Hg. cbv zeta.
  destruct (runClient w host (command w rest)) as [tr [[err|]|code]];
    destruct (w_SetTermios w); try destruct err;
    cbn [bind emit ret defer os_Exit trace result fst snd app];
    rewrite ?app_nil_r; reflexivity.
Qed.

(** ** The reverse tunnel *)


Lemma shell_no_tunnel (w : World) (cmd : string) (envs : list string) :
  Forall (fun e => is_tunnel e = false) (trace (shell w cmd envs)).
Proof.
  eapply Forall_impl; [|apply shell_events]. intros [] H; try reflexivity; contradiction.
Qed.

Lemma wantNameSpace_false (w : World) :
  wantNameSpace w = false <-> LookupEnv (w_environ w) "CPU_NAMESPACE" = Some "".
Proof.
  unfold wantNameSpace. destruct (LookupEnv (w_environ w) "CPU_NAMESPACE") as [[|c n]|];
    cbn; split; congruence.
Qed.

(** C5. With the transport up: when [CPU_NAMESPACE] is set to the empty
    string the client goes straight to [shell] with the bare command line
    and no extra environment entry, and its run holds no listen request, no
    nonce and no serving task; in every other case, once the deadline
    parses, the listener is requested, and once it is granted and the nonce
    read, [shell] runs on the command line with the port flag and on the
    entry carrying the nonce. *)
Theorem namespace_mode (w : World) (host a : string) :
  transport_ok w host ->
  let base := bin (w_flags w) ++ " -remote -bin " ++ bin (w_flags w) in
  (LookupEnv (w_environ w) "CPU_NAMESPACE" = Some "" ->
     runClient w host a = shell w (base ++ " " ++ q w a) [] /\
     Forall (fun e => is_tunnel e = false) (trace (runClient w host a))) /\
  (LookupEnv (w_environ w) "CPU_NAMESPACE" <> Some "" ->
     forall deadline, w_ParseDuration w (timeout9P (w_flags w)) = inl deadline ->
       In (EvListen "tcp" "127.0.0.1:0") (trace (runClient w host a)) /\
       forall addr n, w_Listen w = inl addr -> generateNonce (w_rand w) = (n, None) ->
         runClient w host a =
         (emit (EvListen "tcp" "127.0.0.1:0") ;;; emit EvGenerateNonce ;;;
          emit (EvGoSrv addr (root (w_flags w)) (nonce_String n) deadline) ;;;
          shell w ((base ++ " -port9p " ++ last (Split addr ":") EmptyString)
                     ++ " " ++ q w a)
                  ["CPUNONCE=" ++ nonce_String n])).
Proof.
  intros Ht base. split.
  - intros He. apply wantNameSpace_false in He.
    rewrite (runClient_no_tunnel w host a Ht He).
    unfold remote_command. rewrite He. fold base.
    split; [reflexivity | apply shell_no_tunnel].
  - intros Hne deadline Hdur.
    assert (Hns : wantNameSpace w = true).
    { destruct (wantNameSpace w) eqn:E; [reflexivity|].
      apply wantNameSpace_false in E. contradiction. }
    split.
    + destruct Ht as (c & Hc & Hd). unfold runClient. rewrite Hc, Hd, Hns. cbv zeta.
      rewrite trace_bind. apply in_or_app. left.
      unfold namespace. rewrite Hdur. rewrite trace_bind. now left.
    + intros addr n Hl Hn.
      rewrite (runClient_tunnel w host a deadline addr n Ht Hns Hdur Hl Hn).
      unfold remote_command. rewrite Hns, Hl. reflexivity.
Qed.

Lemma namespace_mode_witness :
  transport_ok bare_world "testhost" /\
  LookupEnv (w_environ bare_world) "CPU_NAMESPACE" = Some "" /\
  Forall (fun e => is_tunnel e = false) (trace (runClient bare_world "testhost" "ls")).
Proof.
  assert (Ht : transport_ok bare_world "testhost").
  { eexists. split; reflexivity. }
  split; [exact Ht | split; [reflexivity|]].
  apply (proj1 (namespace_mode bare_world "testhost" "ls" Ht)). reflexivity.
Defined.

(** ** The remote command line *)

Lemma q_bash (w : World) : q w "/bin/bash" = quoted_bash.
Proof. reflexivity. Qed.

Lemma started_app (a b : list event) :
  started (a ++ b) = (started a ++ started b)%list.
Proof.
  induction a as [|e a IH]; [reflexivity|].
  destruct e; cbn [started app]; rewrite IH; reflexivity.
Qed.

Lemma started_env (w : World) (envs : list string) :
  started (trace (env w envs)) = [].
Proof.
  pose proof (env_trace w envs) as H.
  induction H as [|e tr He _ IH]; [reflexivity|].
  destruct e; try contradiction; exact IH.
Qed.

Lemma main_started (w : World) (cmd : string) :
  In (EvStart cmd) (trace (main w)) ->
  exists host rest, w_args w = host :: rest /\
                    cmd = remote_command w (command w rest).
Proof.
  unfold main. destruct (w_args w) as [|host rest] eqn:Ha.
  { cbn. intuition discriminate. }
  intros Hin. exists host, rest. split; [reflexivity|].
  destruct (w_GetTermios w) eqn:Hg.
  { cbn in Hin. intuition discriminate. }
  fold (main w) in Hin.
  assert (Hm := main_unfold w host rest Ha Hg). unfold main in Hm.
  rewrite Ha, Hg in Hm. rewrite Hm in Hin. clear Hm. cbv zeta in Hin.
  cbn [trace fst] in Hin. destruct Hin as [Hin|Hin]; [discriminate|].
  apply in_app_or in Hin. destruct Hin as [Hin|Hin].
  - exact (runClient_started w host _ cmd Hin).
  - exfalso. destruct (result (runClient w host (command w rest))) as [[err|]|code];
      destruct (w_SetTermios w); cbn in Hin; intuition discriminate.
Qed.

(** C6, as the code has it.  With no user command, [SHELL=/bin/bash],
    namespace mode on and the listener granted at [addr], every command the
    client starts is [<bin> -remote -bin <bin> -port9p <N> "/bin/bash"],
    where [N] is the text of [addr] after its last colon and the shell path
    stands between double quotes, as [%q] writes it; and when nothing on the
    way refuses, that command is started, once. *)
Theorem remote_command_quoted (w : World) (host : string) (rest : list string)
    (addr : string) :
  w_args w = host :: rest -> Join rest " " = "" ->
  Getenv (w_environ w) "SHELL" = "/bin/bash" ->
  wantNameSpace w = true -> w_Listen w = inl addr ->
  let expected :=
    (bin (w_flags w) ++ " -remote -bin " ++ bin (w_flags w) ++ " -port9p "
       ++ last (Split addr ":") EmptyString ++ " " ++ quoted_bash) in
  (forall cmd, In (EvStart cmd) (trace (main w)) -> cmd = expected) /\
  (w_GetTermios w = None -> transport_ok w host -> tunnel_ok w -> launch_ok w ->
   started (trace (main w)) = [expected]).
Proof.
  intros Ha Hj Hs Hns Hl expected.
  assert (Hcmd : command w rest = "/bin/bash").
  { unfold command. rewrite Hj. exact Hs. }
  assert (Hrc : remote_command w (command w rest) = expected).
  { unfold remote_command, expected. rewrite Hns, Hl, Hcmd, q_bash.
    rewrite !string_app_assoc. reflexivity. }
  split.
  - intros cmd Hin. destruct (main_started w cmd Hin) as (host' & rest' & Ha' & ->).
    rewrite Ha in Ha'. inversion Ha'; subst. exact Hrc.
  - intros Hg Ht Htun Hlaunch.
    rewrite (main_unfold w host rest Ha Hg). cbv zeta. cbn [trace fst].
    destruct Htun as [Hoff | (deadline & addr' & n & Hdur & Hl' & Hn)]; [congruence|].
    rewrite (runClient_tunnel w host _ deadline addr' n Ht Hns Hdur Hl' Hn).
    rewrite Hrc. rewrite (shell_launch w expected _ Hlaunch).
    cbn [bind emit app trace result fst snd started].
    rewrite !started_app, started_env. cbn [started app].
    destruct (w_Start w expected); [|destruct (w_Wait w)];
      destruct (w_SetTermios w); reflexivity.
Qed.

Lemma remote_command_quoted_witness :
  started (trace (main bash_world))
  = ["cpud -remote -bin cpud -port9p 5640 " ++ quoted_bash].
Proof.
  apply (proj2 (remote_command_quoted bash_world "testhost" [] "127.0.0.1:5640"
                  eq_refl eq_refl eq_refl eq_refl eq_refl)).
  - reflexivity.
  - eexists. split; reflexivity.
  - right. do 3 eexists. repeat split; reflexivity.
  - unfold launch_ok. repeat split. discriminate.
Defined.

(** C6, as it is written, fails on [bash_world]: the inputs are those of the
    claim, and the one command started is not the verbatim text. *)
Lemma remote_command_not_verbatim :
  w_args bash_world = ["testhost"] /\
  Getenv (w_environ bash_world) "SHELL" = "/bin/bash" /\
  wantNameSpace bash_world = true /\
  w_Listen bash_world = inl "127.0.0.1:5640" /\
  started (trace (main bash_world))
    = ["cpud -remote -bin cpud -port9p 5640 " ++ quoted_bash] /\
  ~ In (EvStart "cpud -remote -bin cpud -port9p 5640 /bin/bash")
      (trace (main bash_world)).
Proof.
  repeat split. cbn. intuition discriminate.
Qed.

(** ** Terminal restoration *)









(** ** Exit status *)







(** ** Transport configuration *)

Lemma hostKeyCheck_fixed (pk k : PublicKey) :
  hostKeyCheck (FixedHostKey pk) k = None <-> Marshal k = Marshal pk.
Proof.
  cbn [hostKeyCheck]. destruct (String.eqb (Marshal k) (Marshal pk)) eqn:E.
  - apply String.eqb_eq in E. split; [intros _; exact E | reflexivity].
  - apply String.eqb_neq in E. split; [discriminate | contradiction].
Qed.

(** C9. The identity key file that cannot be read, or cannot be parsed,
    makes [config] fail at once with an error that names the file.  With
    the identity key parsed: without a host key file the configuration
    accepts whatever key the remote presents; with one, its content is
    parsed as a public key and, failing that, as an authorized-key line, the
    configuration accepts exactly the keys with the wire encoding of that
    key, and a dial to a remote presenting another key fails. *)
Theorem config_host_key (w : World) (kf : string) :
  (forall err, w_ReadFile w kf = inr err ->
     config w kf
     = inr (errorString ("unable to read private key " ++ kf ++ ": " ++ Error err))) /\
  (forall key err, w_ReadFile w kf = inl key -> w_ParsePrivateKey w key = inr err ->
     config w kf = inr (errorString ("ParsePrivateKey " ++ kf ++ ": " ++ Error err))) /\
  (forall key signer, w_ReadFile w kf = inl key -> w_ParsePrivateKey w key = inl signer ->
     (hostKeyFile (w_flags w) = "" ->
        exists c, config w kf = inl c /\
                  HostKey c = InsecureIgnoreHostKey /\
                  forall k, hostKeyCheck (HostKey c) k = None) /\
     (hostKeyFile (w_flags w) <> "" ->
        forall hk pk, w_ReadFile w (hostKeyFile (w_flags w)) = inl hk ->
          w_ParsePublicKey w hk = inl pk \/
          ((exists e, w_ParsePublicKey w hk = inr e) /\
           w_ParseAuthorizedKey w hk = inl pk) ->
          exists c, config w kf = inl c /\
                    HostKey c = FixedHostKey pk /\
                    (forall k, hostKeyCheck (HostKey c) k = None
                               <-> Marshal k = Marshal pk) /\
                    (forall n a k, w_connect w n a = inl k ->
                                   Marshal k <> Marshal pk ->
                                   exists msg, dial w n a c = Some (errorString msg)))).
Proof.
  split; [|split].
  - intros err Hr. unfold config. now rewrite Hr.
  - intros key err Hr Hp. unfold config. now rewrite Hr, Hp.
  - intros key signer Hr Hp. split.
    + intros Hk. unfold config. rewrite Hr, Hp, Hk. cbn.
      eexists. split; [reflexivity|]. split; reflexivity.
    + intros Hk hk pk Hrk Hparse.
      assert (Hne : negb (String.eqb (hostKeyFile (w_flags w)) "") = true).
      { apply negb_true_iff. now apply String.eqb_neq. }
      assert (Hpk : match w_ParsePublicKey w hk with
                    | inl pk => inl pk
                    | inr _ => w_ParseAuthorizedKey w hk
                    end = inl pk).
      { destruct Hparse as [-> | [[e ->] ->]]; reflexivity. }
      unfold config. rewrite Hr, Hp. cbv zeta. rewrite Hne, Hrk, Hpk.
      eexists. split; [reflexivity|]. cbn [HostKey]. split; [reflexivity|]. split.
      * intros k. apply hostKeyCheck_fixed.
      * intros n a k Hc Hm. unfold dial, ssh_Dial. rewrite Hc. cbn [HostKey hostKeyCheck].
        apply String.eqb_neq in Hm. rewrite Hm. eexists. reflexivity.
Qed.

Lemma config_host_key_witness :
  hostKeyFile (w_flags impostor_world) <> "" /\
  exists c, config impostor_world "/home/u/.ssh/cpu_rsa" = inl c /\
            HostKey c = FixedHostKey {| Marshal := "K1" |}.
Proof.
  assert (Hk : hostKeyFile (w_flags impostor_world) <> "") by discriminate.
  split; [exact Hk|].
  destruct (proj2 (proj2 (proj2 (config_host_key impostor_world "/home/u/.ssh/cpu_rsa"))
                     "PRIVATE" {| key_material := "PRIVATE" |} eq_refl eq_refl)
              Hk "ssh-rsa K1 host" {| Marshal := "K1" |} eq_refl
              (or_intror (conj (ex_intro _ (errorString "ssh: short read") eq_refl) eq_refl)))
    as (c & Hc & Hh & _).
  exists c. split; assumption.
Defined.

(** ** More on the input relay *)

Lemma Write_sound (s : Session) (p : list ascii) :
  sound s ->
  Write s p = ({| forwarded := forwarded s ++ p; closed := false;
                  writes := S (writes s); broken := broken s |}, false).
Proof.
  intros [Hc Hb]. unfold Write. now rewrite Hc, Hb.
Qed.

Lemma Write_keeps (s : Session) (p : list ascii) :
  closed (fst (Write s p)) = closed s /\
  broken (fst (Write s p)) = broken s /\
  exists d, forwarded (fst (Write s p)) = (forwarded s ++ d)%list /\
            (d = [] \/ (d = p /\ snd (Write s p) = false)).
Proof.
  unfold Write. destruct (closed s || broken s (writes s)); cbn.
  - repeat split. exists []. rewrite app_nil_r. auto.
  - repeat split. exists p. auto.
Qed.

(** One turn on a sound session: a return is the escape, with the session
    closed and nothing forwarded; otherwise the session stays sound. *)
Lemma stdin_switch_sound (st : relay) (s : Session) (b : ascii) :
  sound s ->
  match stdin_switch st s b with
  | Return s' => closed s' = true /\ forwarded s' = forwarded s /\
                 tilde st = true /\ b = "."%char
  | Continue st' s' => sound s'
  end.
Proof.
  intros Hs. pose proof Hs as [Hc Hb]. unfold stdin_switch, write_or_return.
  cbv zeta. cbn [tilde newLine].
  destruct (Ascii.eqb b nl || Ascii.eqb b cr).
  { rewrite (Write_sound s _ Hs). split; [reflexivity | exact Hb]. }
  destruct (Ascii.eqb b "~").
  { destruct (newLine st); [exact Hs|].
    rewrite (Write_sound s _ Hs). split; [reflexivity | exact Hb]. }
  destruct (Ascii.eqb b ".") eqn:Ed.
  { apply Ascii.eqb_eq in Ed. destruct (tilde st).
    - repeat split; assumption.
    - rewrite (Write_sound s _ Hs). split; [reflexivity | exact Hb]. }
  destruct (tilde st).
  - rewrite (Write_sound s _ Hs).
    match goal with |- context [Write ?s' [b]] =>
      assert (Hs' : sound s') by (split; [reflexivity | exact Hb]);
      rewrite (Write_sound s' _ Hs')
    end.
    split; [reflexivity | exact Hb].
  - rewrite (Write_sound s _ Hs). split; [reflexivity | exact Hb].
Qed.

(** X1. On a sound session the relay stops in two ways only: at the end of
    the input, everything read and the session still open, or on the escape,
    the session closed. *)
Theorem stdin_stops (s : Session) (r : list ascii) :
  sound s ->
  match ending (stdin s r) with
  | ReadFailed _ => unread (stdin s r) = [] /\ closed (session (stdin s r)) = false
  | Returned => closed (session (stdin s r)) = true
  end.
Proof.
  unfold stdin. generalize {| newLine := false; tilde := false |} as st.
  revert s. induction r as [|b r IH]; intros s st Hs.
  - cbn. split; [reflexivity | apply Hs].
  - cbn [stdin_loop]. pose proof (stdin_switch_sound st s b Hs) as H.
    destruct (stdin_switch st s b) as [st' s'|s'].
    + exact (IH s' st' H).
    + cbn. apply H.
Qed.

Lemma stdin_stops_witness :
  sound (newSession healthy) /\
  closed (session (stdin (newSession healthy) [nl; "~"%char; "."%char])) = true.
Proof.
  assert (Hs : sound (newSession healthy)) by (split; reflexivity).
  split; [exact Hs|].
  exact (stdin_stops (newSession healthy) [nl; "~"%char; "."%char] Hs).
Defined.

(** One turn on a sound session for a byte that is not [~], the escape not
    armed: the byte is forwarded, and the escape stays unarmed. *)
Lemma stdin_switch_plain (st : relay) (s : Session) (b : ascii) :
  sound s -> tilde st = false -> b <> "~"%char ->
  exists st' s',
    stdin_switch st s b = Continue st' s' /\
    tilde st' = false /\ sound s' /\
    forwarded s' = (forwarded s ++ [b])%list.
Proof.
  intros Hs Ht Hb. pose proof Hs as [Hc Hbr].
  apply Ascii.eqb_neq in Hb.
  unfold stdin_switch, write_or_return. cbv zeta. cbn [tilde newLine]. rewrite Hb, Ht.
  destruct (Ascii.eqb b nl || Ascii.eqb b cr); [|destruct (Ascii.eqb b ".")];
    rewrite (Write_sound s _ Hs);
    do 2 eexists; (split; [reflexivity|]);
    cbn [tilde forwarded]; repeat split; try assumption; reflexivity.
Qed.

(** X2. Input without a [~] passes through a sound session unchanged: every
    byte is forwarded, in order, the session stays open and the relay ends
    at the end of the input. *)
Theorem stdin_transparent (s : Session) (r : list ascii) :
  sound s -> ~ In "~"%char r ->
  forwarded (session (stdin s r)) = (forwarded s ++ r)%list /\
  closed (session (stdin s r)) = false /\
  unread (stdin s r) = [] /\
  exists st, ending (stdin s r) = ReadFailed st.
Proof.
  unfold stdin.
  assert (Ht : tilde {| newLine := false; tilde := false |} = false) by reflexivity.
  revert Ht. generalize {| newLine := false; tilde := false |} as st.
  revert s. induction r as [|b r IH]; intros s st Ht Hs Hn.
  - cbn. rewrite app_nil_r. repeat split; [apply Hs | now exists st].
  - cbn [stdin_loop].
    assert (Hb : b <> "~"%char) by (intros ->; apply Hn; now left).
    assert (Hr : ~ In "~"%char r) by (intros H; apply Hn; now right).
    destruct (stdin_switch_plain st s b Hs Ht Hb) as (st' & s' & -> & Ht' & Hs' & Hf).
    destruct (IH s' st' Ht' Hs' Hr) as (H1 & H2 & H3 & H4).
    rewrite H1, Hf, <- app_assoc. repeat split; assumption.
Qed.

Lemma stdin_transparent_witness :
  forwarded (session (stdin (newSession healthy) ["l"%char; "s"%char; nl; "."%char]))
  = ["l"%char; "s"%char; nl; "."%char].
Proof.
  apply (stdin_transparent (newSession healthy) ["l"%char; "s"%char; nl; "."%char]).
  - split; reflexivity.
  - cbn. intuition discriminate.
Defined.

(** A write either fails and forwards nothing, or forwards its bytes; in
    neither case does it open or close the session. *)
Lemma Write_cases (s : Session) (p : list ascii) :
  exists s',
    (Write s p = (s', true) /\ forwarded s' = forwarded s \/
     Write s p = (s', false) /\ forwarded s' = (forwarded s ++ p)%list) /\
    closed s' = closed s.
Proof.
  unfold Write. destruct (closed s || broken s (writes s)).
  - exists {| forwarded := forwarded s; closed := closed s;
              writes := S (writes s); broken := broken s |}.
    split; [left; split; reflexivity | reflexivity].
  - exists {| forwarded := forwarded s ++ p; closed := closed s;
              writes := S (writes s); broken := broken s |}.
    split; [right; split; reflexivity | reflexivity].
Qed.

(** One turn forwards at most the byte read and the [~] held back, and a
    turn that goes on leaves the session as open or closed as it was. *)
Lemma stdin_switch_bound (st : relay) (s : Session) (b : ascii) :
  match stdin_switch st s b with
  | Continue st' s' =>
      closed s' = closed s /\
      exists d, forwarded s' = (forwarded s ++ d)%list /\
                length d + held st' <= 1 + held st
  | Return s' =>
      exists d, forwarded s' = (forwarded s ++ d)%list /\
                length d <= 1 + held st
  end.
Proof.
  unfold stdin_switch, write_or_return, held. cbv zeta. cbn [tilde newLine].
  destruct (Ascii.eqb b nl || Ascii.eqb b cr).
  { destruct (Write_cases s [b]) as (s' & [[-> Hf] | [-> Hf]] & Hc).
    - exists []. rewrite app_nil_r. split; [exact Hf | cbn; rewrite ?Et; lia].
    - split; [exact Hc|]. exists [b]. split; [exact Hf|]. cbn [tilde length].
      rewrite ?Et; destruct (tilde st); lia. }
  destruct (Ascii.eqb b "~").
  { destruct (newLine st).
    - split; [reflexivity|]. exists []. rewrite app_nil_r. split; [reflexivity|].
      cbn. rewrite ?Et; destruct (tilde st); lia.
    - destruct (Write_cases s ["~"%char]) as (s' & [[-> Hf] | [-> Hf]] & Hc).
      + exists []. rewrite app_nil_r. split; [exact Hf | cbn; rewrite ?Et; lia].
      + split; [exact Hc|]. exists ["~"%char]. split; [exact Hf|]. cbn [length].
        rewrite ?Et; destruct (tilde st); lia. }
  destruct (Ascii.eqb b ".").
  { destruct (tilde st) eqn:Et.
    - exists []. cbn. rewrite app_nil_r. split; [reflexivity | lia].
    - destruct (Write_cases s [b]) as (s' & [[-> Hf] | [-> Hf]] & Hc).
      + exists []. rewrite app_nil_r. split; [exact Hf | cbn; rewrite ?Et; lia].
      + split; [exact Hc|]. exists [b]. split; [exact Hf | cbn; rewrite ?Et; lia]. }
  destruct (tilde st) eqn:Et.
  - destruct (Write_cases s ["~"%char]) as (s' & [[-> Hf] | [-> Hf]] & Hc).
    + exists []. rewrite app_nil_r. split; [exact Hf | cbn; rewrite ?Et; lia].
    + destruct (Write_cases s' [b]) as (s'' & [[-> Hf'] | [-> Hf']] & Hc').
      * exists ["~"%char]. rewrite Hf', Hf. split; [reflexivity | cbn; rewrite ?Et; lia].
      * split; [congruence|]. exists ["~"%char; b]. rewrite Hf', Hf, <- app_assoc.
        split; [reflexivity | cbn; rewrite ?Et; lia].
  - destruct (Write_cases s [b]) as (s' & [[-> Hf] | [-> Hf]] & Hc).
    + exists []. rewrite app_nil_r. split; [exact Hf | cbn; rewrite ?Et; lia].
    + split; [exact Hc|]. exists [b]. split; [exact Hf | cbn; rewrite ?Et; lia].
Qed.

Lemma stdin_loop_bound (r : list ascii) :
  forall st s,
  exists d,
    forwarded (session (stdin_loop st s r)) = (forwarded s ++ d)%list /\
    length d + length (unread (stdin_loop st s r)) <= length r + held st.
Proof.
  induction r as [|b r IH]; intros st s.
  - exists []. cbn. rewrite app_nil_r. split; [reflexivity | lia].
  - cbn [stdin_loop]. pose proof (stdin_switch_bound st s b) as H.
    destruct (stdin_switch st s b) as [st' s'|s'].
    + destruct H as (_ & d & Hf & Hl). destruct (IH st' s') as (d' & Hf' & Hl').
      exists (d ++ d')%list. rewrite Hf', Hf, <- app_assoc. split; [reflexivity|].
      rewrite length_app. cbn [length]. lia.
    + destruct H as (d & Hf & Hl). exists d. cbn [session unread length].
      split; [exact Hf | lia].
Qed.

(** X3. Whatever the transport does, the relay only adds to what the session
    has forwarded, and it never forwards more bytes than it has read: the
    bytes added and the bytes left unread are together no more than the
    input. *)
Theorem stdin_forwards_no_more_than_read (s : Session) (r : list ascii) :
  exists d,
    forwarded (session (stdin s r)) = (forwarded s ++ d)%list /\
    length d + length (unread (stdin s r)) <= length r.
Proof.
  destruct (stdin_loop_bound r {| newLine := false; tilde := false |} s)
    as (d & Hf & Hl).
  exists d. split; [exact Hf|]. cbn in Hl. unfold stdin. lia.
Qed.

(** ** The escape *)

Lemma has_dot_cons (x : ascii) (r : list ascii) : has_dot r -> has_dot (x :: r).
Proof. intros (c & d & ->). now exists (x :: c), d. Qed.

Lemma has_tilde_dot_cons (x : ascii) (r : list ascii) :
  has_tilde_dot r -> has_tilde_dot (x :: r).
Proof. intros (b & c & d & ->). now exists (x :: b), c, d. Qed.

Lemma has_escape_cons (x : ascii) (r : list ascii) :
  has_escape r -> has_escape (x :: r).
Proof. intros (a & n & b & c & d & Hn & ->). now exists (x :: a), n, b, c, d. Qed.

Lemma has_tilde_dot_dot (r : list ascii) : has_tilde_dot r -> has_dot r.
Proof.
  intros (b & c & d & ->). exists (b ++ "~"%char :: c)%list, d.
  now rewrite <- app_assoc.
Qed.

Lemma has_escape_tilde_dot (r : list ascii) : has_escape r -> has_tilde_dot r.
Proof.
  intros (a & n & b & c & d & _ & ->). exists (a ++ n :: b)%list, c, d.
  now rewrite <- app_assoc.
Qed.

Lemma escape_left_cons (st : relay) (x : ascii) (r : list ascii) :
  escape_left st r -> escape_left st (x :: r).
Proof.
  unfold escape_left. destruct (tilde st); [|destruct (newLine st)];
    auto using has_dot_cons, has_tilde_dot_cons, has_escape_cons.
Qed.

Lemma has_escape_left (st : relay) (r : list ascii) :
  has_escape r -> escape_left st r.
Proof.
  unfold escape_left. intros H. destruct (tilde st); [|destruct (newLine st)];
    auto using has_tilde_dot_dot, has_escape_tilde_dot.
Qed.

(** What one turn that goes on leaves of the escape to be typed. *)
Lemma stdin_switch_escape (st st' : relay) (s s' : Session) (b : ascii)
    (r : list ascii) :
  stdin_switch st s b = Continue st' s' ->
  escape_left st' r -> escape_left st (b :: r).
Proof.
  unfold stdin_switch, write_or_return. cbv zeta. cbn [tilde newLine].
  destruct (Ascii.eqb b nl || Ascii.eqb b cr) eqn:En.
  { destruct (Write s [b]) as [s1 []]; [discriminate|]. intros H. inversion H; subst.
    unfold escape_left. cbn [tilde newLine].
    destruct (tilde st); [apply has_dot_cons|].
    intros (b0 & c & d & ->). destruct (newLine st).
    - now exists (b :: b0), c, d.
    - exists [], b, b0, c, d. split; [|reflexivity].
      apply orb_true_iff in En. destruct En as [E|E]; apply Ascii.eqb_eq in E; auto. }
  destruct (Ascii.eqb b "~") eqn:Et.
  { apply Ascii.eqb_eq in Et. subst b. destruct (newLine st) eqn:Enl.
    - intros H. inversion H; subst. unfold escape_left. cbn [tilde newLine].
      rewrite Enl. intros (c & d & ->). destruct (tilde st).
      + now exists ("~"%char :: c), d.
      + now exists [], c, d.
    - destruct (Write s ["~"%char]) as [s1 []]; [discriminate|].
      intros H. inversion H; subst. apply escape_left_cons. }
  destruct (Ascii.eqb b ".").
  { destruct (tilde st); [discriminate|].
    destruct (Write s [b]) as [s1 []]; [discriminate|].
    intros H. inversion H; subst. apply escape_left_cons. }
  destruct (tilde st) eqn:Eti.
  - destruct (Write s ["~"%char]) as [s1 []]; [discriminate|].
    destruct (Write s1 [b]) as [s2 []]; [discriminate|].
    intros H. inversion H; subst. intros He.
    apply (has_escape_left st), has_escape_cons. exact He.
  - destruct (Write s [b]) as [s1 []]; [discriminate|].
    intros H. inversion H; subst. intros He.
    apply (has_escape_left st), has_escape_cons. exact He.
Qed.

Lemma stdin_loop_closes (r : list ascii) :
  forall st s,
    closed s = false ->
    closed (session (stdin_loop st s r)) = true ->
    escape_left st r.
Proof.
  induction r as [|b r IH]; intros st s Hc Hclosed.
  - cbn in Hclosed. congruence.
  - cbn [stdin_loop] in Hclosed.
    pose proof (stdin_switch_bound st s b) as Hb.
    pose proof (stdin_switch_sound st s b) as Hsound.
    destruct (stdin_switch st s b) as [st' s'|s'] eqn:E.
    + destruct Hb as (Hc' & _).
      apply (stdin_switch_escape st st' s s' b r E).
      apply (IH st' s'); [congruence | exact Hclosed].
    + cbn [session] in Hclosed. clear Hsound Hb.
      revert E. unfold stdin_switch, write_or_return. cbv zeta. cbn [tilde newLine].
      destruct (Ascii.eqb b nl || Ascii.eqb b cr).
      { destruct (Write_cases s [b]) as (s1 & [[-> _] | [-> _]] & Hc1);
          [|discriminate]. intros H. inversion H; subst. congruence. }
      destruct (Ascii.eqb b "~").
      { destruct (newLine st); [discriminate|].
        destruct (Write_cases s ["~"%char]) as (s1 & [[-> _] | [-> _]] & Hc1);
          [|discriminate]. intros H. inversion H; subst. congruence. }
      destruct (Ascii.eqb b ".") eqn:Ed.
      { apply Ascii.eqb_eq in Ed. subst b. destruct (tilde st) eqn:Et.
        - intros _. unfold escape_left. rewrite Et. now exists [], r.
        - destruct (Write_cases s ["."%char]) as (s1 & [[-> _] | [-> _]] & Hc1);
            [|discriminate]. intros H. inversion H; subst. congruence. }
      destruct (tilde st).
      * destruct (Write_cases s ["~"%char]) as (s1 & [[-> _] | [-> _]] & Hc1).
        { intros H. inversion H; subst. congruence. }
        destruct (Write_cases s1 [b]) as (s2 & [[-> _] | [-> _]] & Hc2);
          [|discriminate]. intros H. inversion H; subst. congruence.
      * destruct (Write_cases s [b]) as (s1 & [[-> _] | [-> _]] & Hc1);
          [|discriminate]. intros H. inversion H; subst. congruence.
Qed.

(** X4. The relay closes an open session only on the escape as typed: the
    input holds a newline or carriage return, after it a [~], after it a
    [.]. *)
Theorem stdin_closes_only_on_escape (s : Session) (r : list ascii) :
  closed s = false ->
  closed (session (stdin s r)) = true ->
  has_escape r.
Proof.
  intros Hc H. exact (stdin_loop_closes r _ s Hc H).
Qed.

Lemma stdin_closes_only_on_escape_witness :
  has_escape ["a"%char; nl; "~"%char; "."%char; "b"%char].
Proof.
  apply (stdin_closes_only_on_escape (newSession healthy)); reflexivity.
Defined.

(** ** More on the nonce *)

Lemma unhex2_hex2 (c : ascii) :
  match hex2 c with
  | String hi (String lo _) => unhex2 hi lo
  | _ => zero
  end = c.
Proof.
  destruct c as [[] [] [] [] [] [] [] []]; vm_compute; reflexivity.
Qed.

Lemma unhex_hexBytes (b : list ascii) :
  unhex (list_ascii_of_string (hexBytes b)) = b.
Proof.
  induction b as [|c b IH]; [reflexivity|].
  cbn [hexBytes]. rewrite list_ascii_of_string_app.
  pose proof (unhex2_hex2 c) as H. unfold hex2 in *.
  cbn [list_ascii_of_string app unhex]. rewrite IH. now rewrite H.
Qed.

(** X5. The nonce keeps all of the random bytes: two successful generations
    that return the same nonce have read the same sixteen bytes. *)
Theorem generateNonce_injective (r1 r2 : Reader) :
  rd_err r1 = None -> rd_err r2 = None ->
  fst (generateNonce r1) = fst (generateNonce r2) ->
  forall i, i < 16 -> rd_byte r1 i = rd_byte r2 i.
Proof.
  intros H1 H2 Heq i Hi.
  rewrite (generateNonce_ok r1 H1), (generateNonce_ok r2 H2) in Heq.
  cbn [fst] in Heq. apply (f_equal unhex) in Heq.
  rewrite !unhex_hexBytes in Heq.
  apply (ext_in_map Heq). apply in_seq. lia.
Qed.

Lemma generateNonce_injective_witness :
  rd_byte (w_rand bash_world) 5 = rd_byte (w_rand bash_world) 5.
Proof.
  apply (generateNonce_injective (w_rand bash_world) (w_rand bash_world));
    [reflexivity | reflexivity | reflexivity | lia].
Defined.

(** ** More on the forwarded port *)

Lemma last_separator (sep : ascii) (s : string) :
  cut sep s <> None ->
  exists h p, s = h ++ String sep p /\ ~ has_byte sep p.
Proof.
  induction s as [|c s IH]; intros H; [now elim H|].
  destruct (cut sep s) as [[b a]|] eqn:E.
  - destruct IH as (h & p & -> & Hp); [discriminate|].
    now exists (String c h), p.
  - cbn [cut] in H. rewrite E in H. destruct (Ascii.eqb c sep) eqn:Ec.
    + apply Ascii.eqb_eq in Ec. subst c. exists EmptyString, s.
      split; [reflexivity | now apply cut_None].
    + now elim H.
Qed.

(** X6. The port [runClient] takes from the listener address is its longest
    suffix without a colon: it holds no colon, and what precedes it in the
    address is empty or ends with a colon. *)
Theorem port_is_colon_free_suffix (addr : string) :
  let port9p := last (Split addr ":") EmptyString in
  ~ has_byte ":" port9p /\
  exists pre, addr = pre ++ port9p /\ (pre = "" \/ exists h, pre = h ++ ":").
Proof.
  cbv zeta. destruct (cut ":" addr) as [[b a]|] eqn:E.
  - destruct (last_separator ":" addr) as (h & p & -> & Hp); [congruence|].
    change (h ++ String ":" p) with (h ++ ":" ++ p).
    rewrite (Split_last_segment h p Hp). split; [exact Hp|].
    exists (h ++ ":"). split; [now rewrite string_app_assoc | right; now exists h].
  - apply cut_None in E. rewrite (Split_no_separator addr ":" E). cbn [last].
    split; [exact E|]. exists EmptyString. split; [reflexivity | now left].
Qed.

(** ** More on the quoted command *)

Lemma escapeASCII_plain (c : ascii) :
  is_plain c = true -> is_ascii c = true /\ escapeASCII c = String c EmptyString.
Proof.
  destruct c as [[] [] [] [] [] [] [] []]; vm_compute; intros H;
    first [discriminate H | split; reflexivity].
Qed.

Lemma escapeASCII_printable (c : ascii) :
  is_ascii c = true ->
  forallb is_printable (list_ascii_of_string (escapeASCII c)) = true.
Proof.
  destruct c as [[] [] [] [] [] [] [] []]; vm_compute; intros H;
    first [discriminate H | reflexivity].
Qed.

Lemma forallb_string_app (f : ascii -> bool) (s t : string) :
  forallb f (list_ascii_of_string (s ++ t))
  = forallb f (list_ascii_of_string s) && forallb f (list_ascii_of_string t).
Proof. now rewrite list_ascii_of_string_app, forallb_app. Qed.

Lemma appendQuoted_plain (wide : string -> string * nat) (a : string) :
  forallb is_plain (list_ascii_of_string a) = true ->
  appendQuoted wide 0 a = a.
Proof.
  induction a as [|c a IH]; [reflexivity|].
  cbn [list_ascii_of_string forallb]. intros H.
  apply andb_true_iff in H. destruct H as [Hc Ha].
  destruct (escapeASCII_plain c Hc) as [Hlt He].
  cbn [appendQuoted]. unfold is_ascii in Hlt. rewrite Hlt, He, (IH Ha). reflexivity.
Qed.

(** X7. A user command of printable ASCII without double quote and backslash
    reaches the remote command line as it is, between double quotes. *)
Theorem q_plain (w : World) (a : string) :
  forallb is_plain (list_ascii_of_string a) = true ->
  q w a = String quote_char (a ++ String quote_char EmptyString).
Proof.
  intros H. unfold q, Quote. now rewrite (appendQuoted_plain _ a H).
Qed.

Lemma q_plain_witness :
  q bash_world "ls -l /tmp"
  = String quote_char ("ls -l /tmp" ++ String quote_char EmptyString).
Proof. apply (q_plain bash_world "ls -l /tmp"). reflexivity. Defined.

Lemma appendQuoted_printable (wide : string -> string * nat) (a : string) :
  forallb is_ascii (list_ascii_of_string a) = true ->
  forallb is_printable (list_ascii_of_string (appendQuoted wide 0 a)) = true.
Proof.
  induction a as [|c a IH]; [reflexivity|].
  cbn [list_ascii_of_string forallb]. intros H.
  apply andb_true_iff in H. destruct H as [Hc Ha].
  cbn [appendQuoted]. pose proof Hc as Hlt. unfold is_ascii in Hlt. rewrite Hlt.
  rewrite forallb_string_app, (escapeASCII_printable c Hc), (IH Ha). reflexivity.
Qed.

(** X8. Whatever ASCII bytes the user command holds, control characters
    included, what [%q] puts on the remote command line is printable ASCII:
    no newline, tab or other control character gets there. *)
Theorem q_printable (w : World) (a : string) :
  forallb is_ascii (list_ascii_of_string a) = true ->
  forallb is_printable (list_ascii_of_string (q w a)) = true.
Proof.
  intros H. unfold q, Quote. cbn [list_ascii_of_string forallb].
  rewrite forallb_string_app, (appendQuoted_printable _ a H). reflexivity.
Qed.

Lemma q_printable_witness :
  forallb is_printable
    (list_ascii_of_string (q bash_world (String nl "rm -rf /"))) = true.
Proof. apply (q_printable bash_world (String nl "rm -rf /")). reflexivity. Defined.

(** ** More on the transport configuration *)

(** X9. [config] hands out a configuration only for an identity key that was
    read and parsed, for the user of [$USER] and with that key as the one
    authentication method; and when a host key file is named, the
    configuration pins a key parsed from that file: a bad host key file
    never ends in a configuration that accepts any host key. *)
Theorem config_sound (w : World) (kf : string) (c : ClientConfig) :
  config w kf = inl c ->
  exists key signer,
    w_ReadFile w kf = inl key /\
    w_ParsePrivateKey w key = inl signer /\
    User c = Getenv (w_environ w) "USER" /\
    Auth c = [PublicKeys signer] /\
    (hostKeyFile (w_flags w) = "" -> HostKey c = InsecureIgnoreHostKey) /\
    (hostKeyFile (w_flags w) <> "" ->
       exists hk pk,
         w_ReadFile w (hostKeyFile (w_flags w)) = inl hk /\
         HostKey c = FixedHostKey pk /\
         (w_ParsePublicKey w hk = inl pk \/
          (exists e, w_ParsePublicKey w hk = inr e) /\
          w_ParseAuthorizedKey w hk = inl pk)).
Proof.
  unfold config. intros H.
  destruct (w_ReadFile w kf) as [key|e1] eqn:Hr; [|discriminate].
  destruct (w_ParsePrivateKey w key) as [signer|e2] eqn:Hp; [|discriminate].
  exists key, signer. cbv zeta in H.
  destruct (String.eqb (hostKeyFile (w_flags w)) "") eqn:Hk; cbn [negb] in H.
  - apply String.eqb_eq in Hk. inversion H; subst. cbn [User Auth HostKey].
    split; [reflexivity|]. split; [exact Hp|]. split; [reflexivity|].
    split; [reflexivity|]. split; [reflexivity|]. intros Hn. contradiction.
  - apply String.eqb_neq in Hk.
    destruct (w_ReadFile w (hostKeyFile (w_flags w))) as [hk|e3] eqn:Hrk; [|discriminate].
    destruct (w_ParsePublicKey w hk) as [pk|e4] eqn:Hpk.
    + inversion H; subst. cbn [User Auth HostKey].
      split; [reflexivity|]. split; [exact Hp|]. split; [reflexivity|].
      split; [reflexivity|]. split; [intros Hn; contradiction|].
      intros _. exists hk, pk. split; [reflexivity|]. split; [reflexivity|]. now left.
    + destruct (w_ParseAuthorizedKey w hk) as [pk|e5] eqn:Hak; [|discriminate].
      inversion H; subst. cbn [User Auth HostKey].
      split; [reflexivity|]. split; [exact Hp|]. split; [reflexivity|].
      split; [reflexivity|]. split; [intros Hn; contradiction|].
      intros _. exists hk, pk. split; [reflexivity|]. split; [reflexivity|].
      right. split; [now exists e4 | exact Hak].
Qed.

Lemma config_sound_witness :
  exists key signer,
    w_ReadFile impostor_world "/home/u/.ssh/cpu_rsa" = inl key /\
    w_ParsePrivateKey impostor_world key = inl signer.
Proof.
  destruct (config_sound impostor_world "/home/u/.ssh/cpu_rsa"
              {| User := ""; Auth := [PublicKeys {| key_material := "PRIVATE" |}];
                 HostKey := FixedHostKey {| Marshal := "K1" |} |} eq_refl)
    as (key & signer & Hr & Hp & _).
  now exists key, signer.
Defined.

(** X10. With the identity key parsed and a host key file named: a file that
    cannot be read makes [config] fail with an error naming it, and so does
    a file neither parser accepts, with the error of the authorized-key
    parser as the cause, the error of the public-key parser being dropped. *)
Theorem config_host_key_errors (w : World) (kf key : string) (signer : Signer) :
  w_ReadFile w kf = inl key -> w_ParsePrivateKey w key = inl signer ->
  hostKeyFile (w_flags w) <> "" ->
  let hkf := hostKeyFile (w_flags w) in
  (forall err, w_ReadFile w hkf = inr err ->
     config w kf
     = inr (errorString ("unable to read host key " ++ hkf ++ ": " ++ Error err))) /\
  (forall hk e1 e2,
     w_ReadFile w hkf = inl hk ->
     w_ParsePublicKey w hk = inr e1 -> w_ParseAuthorizedKey w hk = inr e2 ->
     config w kf = inr (errorString ("parse host key " ++ hkf ++ ": " ++ Error e2))).
Proof.
  intros Hr Hp Hk hkf.
  assert (Hne : negb (String.eqb (hostKeyFile (w_flags w)) "") = true).
  { apply negb_true_iff. now apply String.eqb_neq. }
  split.
  - intros err He. unfold config. rewrite Hr, Hp. cbv zeta. fold hkf.
    unfold hkf at 1. rewrite Hne. fold hkf. now rewrite He.
  - intros hk e1 e2 He H1 H2. unfold config. rewrite Hr, Hp. cbv zeta. fold hkf.
    unfold hkf at 1. rewrite Hne. fold hkf. now rewrite He, H1, H2.
Qed.

Lemma config_host_key_errors_witness :
  config badkey_world "/home/u/.ssh/cpu_rsa"
  = inr (errorString "parse host key /home/u/.ssh/cpu_rsa: ssh: no key found").
Proof.
  refine (proj2 (config_host_key_errors badkey_world "/home/u/.ssh/cpu_rsa" "PRIVATE"
                   {| key_material := "PRIVATE" |} eq_refl eq_refl _)
            "PRIVATE" (errorString "ssh: short read") (errorString "ssh: no key found")
            eq_refl eq_refl eq_refl).
  discriminate.
Defined.

(** X11. A remote that presents another key than the pinned one gets nothing:
    the run of [main] is the terminal snapshot, the log of the dial error,
    and the terminal restoration; no listener is asked for, no session is
    opened, no variable and no command are sent, the terminal is never raw,
    and the status is 1. *)
Theorem impostor_gets_nothing (w : World) (host : string) (rest : list string)
    (c : ClientConfig) (pk k : PublicKey) :
  w_args w = host :: rest -> w_GetTermios w = None ->
  config w (keyFile (w_flags w)) = inl c ->
  HostKey c = FixedHostKey pk ->
  w_connect w (network (w_flags w)) (JoinHostPort host (port (w_flags w))) = inl k ->
  Marshal k <> Marshal pk ->
  trace (main w)
  = (EvGetTermios ::
     EvLog "SSH error Failed to dial: ssh: handshake failed: ssh: host key mismatch" ::
     EvSetTermios ::
     match w_SetTermios w with
     | Some e => [EvLog (Error e)]
     | None => []
     end)%list /\
  exit_status (main w) = 1%Z.
Proof.
  intros Ha Hg Hc Hh Hcon Hm.
  assert (Hd : dial w (network (w_flags w)) (JoinHostPort host (port (w_flags w))) c
               = Some (errorString
                         "Failed to dial: ssh: handshake failed: ssh: host key mismatch")).
  { unfold dial, ssh_Dial. rewrite Hcon, Hh. cbn [hostKeyCheck].
    apply String.eqb_neq in Hm. now rewrite Hm. }
  assert (Hrun : runClient w host (command w rest)
                 = ([], Done (Some (errorString
                      "Failed to dial: ssh: handshake failed: ssh: host key mismatch")))).
  { unfold runClient. now rewrite Hc, Hd. }
  unfold exit_status. rewrite (main_unfold w host rest Ha Hg). cbv zeta.
  rewrite Hrun. split; reflexivity.
Qed.

Lemma impostor_gets_nothing_witness :
  exit_status (main impostor_world) = 1%Z.
Proof.
  refine (proj2 (impostor_gets_nothing impostor_world "testhost" []
                   {| User := ""; Auth := [PublicKeys {| key_material := "PRIVATE" |}];
                      HostKey := FixedHostKey {| Marshal := "K1" |} |}
                   {| Marshal := "K1" |} {| Marshal := "K2" |}
                   eq_refl eq_refl eq_refl eq_refl eq_refl _)).
  discriminate.
Defined.

(** ** More on the reverse tunnel *)

Lemma generateNonce_fails (rr : Reader) (e : error) :
  rd_err rr = Some e -> generateNonce rr = (nonce_zero, Some e).
Proof. intros H. unfold generateNonce, rand_Read. now rewrite H. Qed.

(** X12. With the transport up and namespace mode on, a tunnel that cannot be
    set up stops the client before it touches the terminal or opens a
    session: a deadline that does not parse returns its error with nothing
    done; a refused listener returns the wrapped error after the one listen
    request; a failing random source ends the process with status 1 after
    the listen request, without a serving task. *)
Theorem tunnel_refused (w : World) (host a : string) :
  transport_ok w host -> wantNameSpace w = true ->
  (forall err, w_ParseDuration w (timeout9P (w_flags w)) = inr err ->
     runClient w host a = ([], Done (Some err))) /\
  (forall d e, w_ParseDuration w (timeout9P (w_flags w)) = inl d ->
     w_Listen w = inr e ->
     runClient w host a
     = ([EvListen "tcp" "127.0.0.1:0"],
        Done (Some (errorString ("First cl.Listen " ++ Error e))))) /\
  (forall d addr e, w_ParseDuration w (timeout9P (w_flags w)) = inl d ->
     w_Listen w = inl addr -> rd_err (w_rand w) = Some e ->
     runClient w host a
     = ([EvListen "tcp" "127.0.0.1:0"; EvGenerateNonce;
         EvLog ("Getting nonce: " ++ Error e)],
        Exited 1%Z)).
Proof.
  intros (c & Hc & Hd) Hns. unfold runClient. rewrite Hc, Hd, Hns. cbv zeta.
  unfold namespace. repeat split.
  - intros err He. now rewrite He.
  - intros d e He Hl. now rewrite He, Hl.
  - intros d addr e He Hl Hr.
    now rewrite He, Hl, Split_length_pos, (generateNonce_fails _ e Hr).
Qed.

Lemma tunnel_refused_witness :
  runClient nolisten_world "testhost" "/bin/bash"
  = ([EvListen "tcp" "127.0.0.1:0"],
     Done (Some (errorString
                   "First cl.Listen ssh: tcpip-forward request denied by peer"))).
Proof.
  refine (proj1 (proj2 (tunnel_refused nolisten_world "testhost" "/bin/bash" _ eq_refl))
            100000000%Z _ eq_refl eq_refl).
  eexists. split; reflexivity.
Defined.

(** ** More on main *)

Lemma append_nonempty (a b : string) (c : ascii) : a ++ String c b <> "".
Proof. destruct a; discriminate. Qed.

(** X13. [$SHELL] stands for the user command exactly when there is no word
    after the host, or a single empty one; in every other case the command
    is the words joined by single spaces, and it is not empty. *)
Theorem command_default (w : World) (rest : list string) :
  (rest = [] \/ rest = [""] -> command w rest = Getenv (w_environ w) "SHELL") /\
  (rest <> [] -> rest <> [""] ->
     command w rest = Join rest " " /\ command w rest <> "").
Proof.
  unfold command, Join. split.
  - intros [-> | ->]; reflexivity.
  - intros H1 H2. destruct rest as [|x [|y l]].
    + contradiction.
    + cbn [String.concat]. destruct x as [|c x]; [contradiction|].
      cbn [String.eqb]. split; [reflexivity | discriminate].
    + assert (Hne : String.concat " " (x :: y :: l) <> "").
      { cbn [String.concat]. apply append_nonempty. }
      apply String.eqb_neq in Hne. rewrite Hne. cbv zeta.
      split; [reflexivity | now apply String.eqb_neq].
Qed.

Lemma command_default_witness :
  command bash_world ["ls"; "-l"] = "ls -l".
Proof.
  refine (proj1 (proj2 (command_default bash_world ["ls"; "-l"]) _ _));
    discriminate.
Defined.

Lemma env_loop_with_SetTermios (w : World) (r : option error) (vs : list string) :
  env_loop (with_SetTermios w r) vs = env_loop w vs.
Proof.
  induction vs as [|v vs IH]; [reflexivity|].
  cbn [env_loop]. rewrite IH. reflexivity.
Qed.

Lemma shell_with_SetTermios (w : World) (r : option error) (cmd : string)
    (envs : list string) :
  shell (with_SetTermios w r) cmd envs = shell w cmd envs.
Proof.
  unfold shell, env. rewrite env_loop_with_SetTermios. reflexivity.
Qed.

Lemma runClient_with_SetTermios (w : World) (r : option error) (host a : string) :
  runClient (with_SetTermios w r) host a = runClient w host a.
Proof.
  unfold runClient.
  change (config (with_SetTermios w r) (keyFile (w_flags (with_SetTermios w r))))
    with (config w (keyFile (w_flags w))).
  destruct (config w (keyFile (w_flags w))) as [c|err]; [|reflexivity].
  change (dial (with_SetTermios w r) (network (w_flags (with_SetTermios w r)))
            (JoinHostPort host (port (w_flags (with_SetTermios w r)))) c)
    with (dial w (network (w_flags w)) (JoinHostPort host (port (w_flags w))) c).
  destruct (dial w _ _ c); [reflexivity|]. cbv zeta.
  change (wantNameSpace (with_SetTermios w r)) with (wantNameSpace w).
  change (bin (w_flags (with_SetTermios w r))) with (bin (w_flags w)).
  set (base := bin (w_flags w) ++ " -remote -bin " ++ bin (w_flags w)).
  change (namespace (with_SetTermios w r) base []) with (namespace w base []).
  destruct (if wantNameSpace w then namespace w base [] else ret (inl (base, [])))
    as [tr [[[c0 e0]|err]|code]]; cbn [bind]; [|reflexivity|reflexivity].
  rewrite shell_with_SetTermios. reflexivity.
Qed.

(** X14. Whether the last terminal restoration succeeds or fails makes no
    difference to the status the process ends with. *)
Theorem exit_status_ignores_SetTermios (w : World) (r : option error) :
  exit_status (main (with_SetTermios w r)) = exit_status (main w).
Proof.
  destruct (w_args w) as [|host rest] eqn:Ha.
  { unfold main. cbn [w_args with_SetTermios]. rewrite Ha. reflexivity. }
  destruct (w_GetTermios w) as [e|] eqn:Hg.
  { unfold main. cbn [w_args w_GetTermios with_SetTermios]. rewrite Ha, Hg. reflexivity. }
  unfold exit_status.
  rewrite (main_unfold w host rest Ha Hg).
  rewrite (main_unfold (with_SetTermios w r) host rest Ha Hg).
  cbv zeta. cbn [result snd].
  change (command (with_SetTermios w r) rest) with (command w rest).
  rewrite runClient_with_SetTermios. reflexivity.
Qed.

(** ** More on the environment and the sessions *)

Lemma env_loop_cons (w : World) (v : string) (vs : list string) :
  exists logs,
    trace (env_loop w (v :: vs))
    = (EvSetenv (fst (setenv_args v)) (snd (setenv_args v)) :: logs
         ++ trace (env_loop w vs))%list /\
    filter is_log logs = logs /\
    length logs = if refused w v then 1 else 0.
Proof.
  cbn [env_loop]. rewrite SplitN_2. unfold refused, setenv_args.
  destruct (cut "=" v) as [[name value]|]; cbn [length Nat.eqb nth app fst snd];
    rewrite !trace_bind; cbn [emit trace result fst snd app];
    (destruct (w_Setenv w _ _); cbn [emit ret trace result fst snd app];
     first [ exists []; split; [reflexivity | split; reflexivity]
           | eexists (cons _ nil); split; [reflexivity | split; reflexivity] ]).
Qed.

Lemma env_loop_logs (w : World) (vs : list string) :
  length (filter is_log (trace (env_loop w vs)))
  = length (filter (refused w) vs).
Proof.
  induction vs as [|v vs IH]; [reflexivity|].
  destruct (env_loop_cons w v vs) as (logs & -> & Hf & Hl).
  cbn [filter is_log]. rewrite filter_app, length_app, Hf, Hl, IH.
  destruct (refused w v); reflexivity.
Qed.

(** X15. [env] never gives up on a refused variable: it returns, it has asked
    for every entry of the local environment and every extra entry, and it
    has logged one warning for each entry the remote refused. *)
Theorem env_warns_and_goes_on (w : World) (envs : list string) :
  result (env w envs) = Done tt /\
  length (setenv_calls (trace (env w envs))) = length (w_environ w ++ envs) /\
  length (filter is_log (trace (env w envs)))
  = length (filter (refused w) (w_environ w ++ envs)).
Proof.
  split; [apply env_result|]. split.
  - unfold env. destruct (env_loop_trace w (w_environ w ++ envs)) as [_ ->].
    apply length_map.
  - apply env_loop_logs.
Qed.

(** X16. [cmd] hands back the remote output exactly when the session was
    created and the command started and finished without error; it always
    returns; and once the session is created, closing it is the last thing
    the function does, on the failing paths too. *)
Theorem cmd_spec (w : World) (stdout s : string) :
  (forall out, result (cmd w stdout s) = Done (inl out) <->
     w_NewSession w = None /\ w_Start w s = None /\ w_Wait w = None /\
     out = stdout) /\
  (exists r, result (cmd w stdout s) = Done r) /\
  (w_NewSession w = None ->
   exists body, trace (cmd w stdout s)
                = (EvNewSession :: body ++ [EvSessionClose])%list /\
                ~ In EvSessionClose body).
Proof.
  unfold cmd.
  destruct (w_NewSession w) as [e1|] eqn:H1;
    [| destruct (w_Start w s) as [e2|] eqn:H2;
       [| destruct (w_Wait w) as [e3|] eqn:H3 ] ];
    cbn; (split; [intros out; split;
                    [intros H; inversion H; repeat split; congruence
                    | intros (A & B & C & D); first [congruence | subst; reflexivity]]
                 |]);
    (split; [eexists; reflexivity|]); intros Hn; try discriminate.
  - exists [EvStart s]. split; [reflexivity|]. cbn. intuition discriminate.
  - exists [EvStart s; EvWait]. split; [reflexivity|]. cbn. intuition discriminate.
  - exists [EvStart s; EvWait]. split; [reflexivity|]. cbn. intuition discriminate.
Qed.

Lemma cmd_spec_witness :
  result (cmd bash_world "u" "whoami") = Done (inl "u").
Proof.
  apply (proj1 (cmd_spec bash_world "u" "whoami")). repeat split.
Defined.

(** X17. A session [shell] has opened is closed when [shell] returns, whatever
    it returns: the close and then the terminal restoration are the last
    two events of the run, and neither occurs before. *)
Theorem shell_closes_session (w : World) (cmd0 : string) (envs : list string)
    (o : option error) :
  result (shell w cmd0 envs) = Done o ->
  In EvNewSession (trace (shell w cmd0 envs)) ->
  w_NewSession w = None ->
  exists body,
    trace (shell w cmd0 envs) = (body ++ [EvSessionClose; EvSet])%list /\
    ~ In EvSessionClose body /\ ~ In EvSet body.
Proof.
  rewrite (run_eta (shell w cmd0 envs)) at 1.
  shell_cases w cmd0; intros Hres Hin Hnew; try discriminate;
    try (exfalso; revert Hin; solve [not_in]).
  all: eexists; (split;
         [ rewrite <- app_assoc; cbn [app]; rewrite !app_comm_cons; reflexivity |]).
  all: split; solve [not_in].
Qed.

Lemma shell_closes_session_witness :
  exists body,
    trace (shell failing_world "false" [])
    = (body ++ [EvSessionClose; EvSet])%list.
Proof.
  destruct (shell_closes_session failing_world "false" []
              (Some (ExitError 3 "Process exited with status 3")) eq_refl)
    as (body & H & _).
  - cbn. intuition.
  - reflexivity.
  - now exists body.
Defined.

(** ** From the start of the remote command back to what made it possible *)

Lemma shell_started_launch (w : World) (cmd0 c : string) (envs : list string) :
  In (EvStart c) (trace (shell w cmd0 envs)) -> launch_ok w.
Proof.
  shell_cases w cmd0; intros Hin; try (exfalso; revert Hin; solve [not_in]).
  all: unfold launch_ok; repeat split; try assumption.
  all: intros E;
    first [ eexists; eassumption
          | exfalso;
            match goal with
            | H : String.eqb _ _ = false |- _ =>
                apply String.eqb_neq in H; exact (H E)
            end ].
Qed.

Lemma runClient_start_conditions (w : World) (host a c : string) :
  In (EvStart c) (trace (runClient w host a)) ->
  transport_ok w host /\ tunnel_ok w /\ launch_ok w.
Proof.
  intros Hin.
  destruct (config w (keyFile (w_flags w))) as [cf|err] eqn:Hc.
  2: { unfold runClient in Hin. rewrite Hc in Hin. destruct Hin. }
  destruct (dial w (network (w_flags w)) (JoinHostPort host (port (w_flags w))) cf)
    as [err|] eqn:Hd.
  { unfold runClient in Hin. rewrite Hc, Hd in Hin. destruct Hin. }
  assert (Ht : transport_ok w host) by (exists cf; now split).
  destruct (wantNameSpace w) eqn:Hns.
  - destruct (w_ParseDuration w (timeout9P (w_flags w))) as [d|err] eqn:Hdur.
    2: { unfold runClient, namespace in Hin. rewrite Hc, Hd, Hns, Hdur in Hin.
         destruct Hin. }
    destruct (w_Listen w) as [addr|err] eqn:Hl.
    2: { unfold runClient, namespace in Hin. rewrite Hc, Hd, Hns, Hdur, Hl in Hin.
         cbn in Hin. intuition discriminate. }
    destruct (generateNonce (w_rand w)) as [n [err|]] eqn:Hn.
    { unfold runClient, namespace in Hin.
      rewrite Hc, Hd, Hns, Hdur, Hl, Split_length_pos, Hn in Hin.
      cbn in Hin. intuition discriminate. }
    rewrite (runClient_tunnel w host a d addr n Ht Hns Hdur Hl Hn) in Hin.
    rewrite !trace_bind in Hin. cbn [emit trace result fst snd app] in Hin.
    destruct Hin as [Hin|[Hin|[Hin|Hin]]]; try discriminate.
    split; [exact Ht|]. split.
    + right. now exists d, addr, n.
    + exact (shell_started_launch w _ c _ Hin).
  - rewrite (runClient_no_tunnel w host a Ht Hns) in Hin.
    split; [exact Ht|]. split; [now left|].
    exact (shell_started_launch w _ c _ Hin).
Qed.

Lemma main_start_conditions (w : World) (c : string) :
  In (EvStart c) (trace (main w)) ->
  exists host rest,
    w_args w = host :: rest /\ w_GetTermios w = None /\
    transport_ok w host /\ tunnel_ok w /\ launch_ok w.
Proof.
  intros Hin. destruct (w_args w) as [|host rest] eqn:Ha.
  { unfold main in Hin. rewrite Ha in Hin. cbn in Hin. intuition discriminate. }
  exists host, rest. split; [reflexivity|].
  destruct (w_GetTermios w) eqn:Hg.
  { unfold main in Hin. rewrite Ha, Hg in Hin. cbn in Hin. intuition discriminate. }
  split; [reflexivity|].
  rewrite (main_unfold w host rest Ha Hg) in Hin. cbv zeta in Hin.
  cbn [trace fst] in Hin. destruct Hin as [Hin|Hin]; [discriminate|].
  apply in_app_or in Hin. destruct Hin as [Hin|Hin].
  - exact (runClient_start_conditions w host _ c Hin).
  - exfalso. destruct (result (runClient w host (command w rest))) as [[err|]|code];
      destruct (w_SetTermios w); cbn in Hin; intuition discriminate.
Qed.

(** X18. A remote command is started only when everything before it went
    through: there is a host argument, the terminal state was read, the
    transport was configured and dialled, the tunnel was set up unless
    namespace mode is off, and the terminal, the session, the pseudo-terminal
    and the three pipes were granted. *)
Theorem remote_start_requires (w : World) (c : string) :
  In (EvStart c) (trace (main w)) ->
  exists host rest,
    w_args w = host :: rest /\ w_GetTermios w = None /\
    transport_ok w host /\ tunnel_ok w /\ launch_ok w /\
    c = remote_command w (command w rest).
Proof.
  intros Hin.
  destruct (main_start_conditions w c Hin) as (host & rest & Ha & Hg & Ht & Htu & Hl).
  exists host, rest. do 5 (split; [assumption|]).
  destruct (main_started w c Hin) as (host' & rest' & Ha' & ->).
  rewrite Ha in Ha'. now inversion Ha'.
Qed.

Lemma remote_start_requires_witness :
  exists host rest, w_args bash_world = host :: rest /\ launch_ok bash_world.
Proof.
  destruct (remote_start_requires bash_world
              ("cpud -remote -bin cpud -port9p 5640 " ++ quoted_bash))
    as (host & rest & Ha & _ & _ & _ & Hl & _).
  - cbn. intuition.
  - now exists host, rest.
Defined.

(** ** The order of a run *)

Lemma started_not_start (l : list event) :
  Forall not_start l -> started l = [].
Proof.
  induction 1 as [|e l He _ IH]; [reflexivity|].
  destruct e; try contradiction; exact IH.
Qed.

Lemma setenv_calls_app (a b : list event) :
  setenv_calls (a ++ b) = (setenv_calls a ++ setenv_calls b)%list.
Proof.
  induction a as [|e a IH]; [reflexivity|].
  destruct e; cbn [setenv_calls app]; rewrite IH; reflexivity.
Qed.

Lemma after_start_facts (l : list event) :
  Forall after_start l ->
  started l = [] /\ setenv_calls l = [] /\
  Forall (fun e => is_tunnel e = false) l /\ ~ In EvRequestPty l /\ ~ In EvRaw l.
Proof.
  induction 1 as [|e l He _ (I1 & I2 & I3 & I4 & I5)].
  - repeat split; try constructor; intros [].
  - destruct e; try contradiction; cbn [started setenv_calls];
      (repeat split; [assumption | assumption | constructor; [reflexivity | assumption]
                     | intros [H|H]; [discriminate | exact (I4 H)]
                     | intros [H|H]; [discriminate | exact (I5 H)]]).
Qed.


(** The run of [main] when the remote command gets started. *)
Lemma main_launch_trace (w : World) (host : string) (rest : list string) :
  w_args w = host :: rest -> w_GetTermios w = None ->
  transport_ok w host -> tunnel_ok w -> launch_ok w ->
  exists tun envs tail,
    trace (main w)
    = ((EvGetTermios :: tun ++ EvRaw :: EvNewSession :: trace (env w envs)
          ++ [EvRequestPty])
         ++ EvStart (remote_command w (command w rest)) :: tail)%list /\
    Forall tunnel_event tun /\
    Forall after_start tail /\
    (wantNameSpace w = true ->
     exists d addr n,
       w_Listen w = inl addr /\ generateNonce (w_rand w) = (n, None) /\
       tun = [EvListen "tcp" "127.0.0.1:0"; EvGenerateNonce;
              EvGoSrv addr (root (w_flags w)) (nonce_String n) d] /\
       envs = ["CPUNONCE=" ++ nonce_String n]) /\
    (wantNameSpace w = false -> tun = [] /\ envs = []).
Proof.
  intros Ha Hg Ht Htun Hl.
  rewrite (main_unfold w host rest Ha Hg). cbv zeta. cbn [trace fst].
  set (a := command w rest).
  set (tailf := fun o : option error =>
         (match w_Start w (remote_command w a) with
          | Some _ => []
          | None => [EvGoStdin; EvGoStdout; EvGoStderr; EvWait]
          end ++ [EvSessionClose; EvSet] ++
          match o with
          | Some err => [EvLog ("SSH error " ++ Error err)]
          | None => []
          end ++ EvSetTermios :: match w_SetTermios w with
                                 | Some e => [EvLog (Error e)]
                                 | None => []
                                 end)%list).
  assert (Htail : forall o, Forall after_start (tailf o)).
  { intros o. unfold tailf.
    destruct (w_Start w (remote_command w a)), o, (w_SetTermios w);
      cbn [app]; repeat (apply Forall_cons; [exact I|]); apply Forall_nil. }
  set (res := match w_Start w (remote_command w a) with
              | Some err =>
                  Some (errorString ("Failed to run " ++ remote_command w a
                                       ++ ": " ++ Error err))
              | None => w_Wait w
              end).
  destruct (wantNameSpace w) eqn:Hns.
  - destruct Htun as [Hoff | (d & addr & n & Hdur & Hli & Hn)]; [congruence|].
    rewrite (runClient_tunnel w host a d addr n Ht Hns Hdur Hli Hn).
    rewrite (shell_launch w _ _ Hl). fold res.
    cbn [bind emit app trace result fst snd].
    exists [EvListen "tcp" "127.0.0.1:0"; EvGenerateNonce;
            EvGoSrv addr (root (w_flags w)) (nonce_String n) d],
           ["CPUNONCE=" ++ nonce_String n], (tailf res).
    split; [|split; [|split; [|split]]].
    + unfold tailf. cbn [app]. repeat (rewrite <- app_assoc; cbn [app]). reflexivity.
    + repeat (apply Forall_cons; [exact I|]). apply Forall_nil.
    + apply Htail.
    + intros _. exists d, addr, n. repeat split; assumption.
    + discriminate.
  - rewrite (runClient_no_tunnel w host a Ht Hns).
    rewrite (shell_launch w _ _ Hl). fold res. cbn [trace result fst snd].
    exists [], [], (tailf res).
    split; [|split; [|split; [|split]]].
    + unfold tailf. cbn [app]. repeat (rewrite <- app_assoc; cbn [app]). reflexivity.
    + constructor.
    + apply Htail.
    + discriminate.
    + auto.
Qed.

Lemma setenv_calls_tunnel (l : list event) :
  Forall tunnel_event l -> setenv_calls l = [].
Proof.
  induction 1 as [|e l He _ IH]; [reflexivity|].
  destruct e; try contradiction; exact IH.
Qed.




(** X20. When a remote command is started with namespace mode on, one secret
    serves both ends: the nonce handed to the serving task is the nonce of
    the [CPUNONCE] variable, which is the last variable set on the remote,
    after whatever the local environment holds under that name. *)
Theorem one_secret_for_both_ends (w : World) (c : string) :
  In (EvStart c) (trace (main w)) ->
  wantNameSpace w = true ->
  exists n addr d,
    generateNonce (w_rand w) = (n, None) /\
    In (EvGoSrv addr (root (w_flags w)) (nonce_String n) d) (trace (main w)) /\
    last (setenv_calls (trace (main w))) (EmptyString, EmptyString)
    = ("CPUNONCE", nonce_String n).
Proof.
  intros Hin Hns.
  destruct (main_start_conditions w c Hin) as (host & rest & Ha & Hg & Ht & Htu & Hl).
  destruct (main_launch_trace w host rest Ha Hg Ht Htu Hl)
    as (tun & envs & tail & Htr & Htun & Htail & Hon & _).
  destruct (Hon Hns) as (d & addr & n & _ & Hn & Htun' & Henvs).
  destruct (after_start_facts tail Htail) as (_ & T2 & _).
  exists n, addr, d. split; [exact Hn|]. rewrite Htr. split.
  - subst tun. cbn. auto.
  - rewrite setenv_calls_app. cbn [setenv_calls]. rewrite T2, app_nil_r.
    rewrite setenv_calls_app, (setenv_calls_tunnel tun Htun). cbn [app setenv_calls].
    rewrite setenv_calls_app. cbn [setenv_calls]. rewrite app_nil_r.
    unfold env. destruct (env_loop_trace w (w_environ w ++ envs)) as [_ ->].
    subst envs. rewrite map_app. cbn [map]. rewrite last_last. reflexivity.
Qed.

Lemma one_secret_for_both_ends_witness :
  exists n addr d,
    generateNonce (w_rand bash_world) = (n, None) /\
    In (EvGoSrv addr (root (w_flags bash_world)) (nonce_String n) d)
      (trace (main bash_world)).
Proof.
  destruct (one_secret_for_both_ends bash_world
              ("cpud -remote -bin cpud -port9p 5640 " ++ quoted_bash))
    as (n & addr & d & Hn & Hs & _).
  - cbn. intuition.
  - reflexivity.
  - now exists n, addr, d.
Defined.

(** ** Failing writes, and the paths that skip the restoration *)

(** X21. On a pipe that refuses the first write, or on a closed session, the
    relay returns on the first byte it reads: nothing is forwarded, the rest
    of the input stays unread, and the relay does not close the session. *)
Theorem stdin_dead_pipe (s : Session) (b : ascii) (r : list ascii) :
  closed s || broken s (writes s) = true ->
  stdin s (b :: r)
  = {| session := {| forwarded := forwarded s; closed := closed s;
                     writes := S (writes s); broken := broken s |};
       unread := r;
       ending := Returned |}.
Proof.
  intros H. unfold stdin. cbn [stdin_loop].
  unfold stdin_switch, write_or_return, Write. cbv zeta. cbn [tilde newLine].
  rewrite H.
  destruct (Ascii.eqb b nl || Ascii.eqb b cr); [reflexivity|].
  destruct (Ascii.eqb b "~"); [reflexivity|].
  destruct (Ascii.eqb b "."); reflexivity.
Qed.

Lemma stdin_dead_pipe_witness :
  forwarded (session (stdin (newSession (fun _ => true)) ["l"%char; "s"%char; nl])) = [].
Proof.
  rewrite (stdin_dead_pipe (newSession (fun _ => true)) "l" ["s"%char; nl] eq_refl).
  reflexivity.
Defined.

Lemma generateNonce_error (rr : Reader) (n : nonce) (e : error) :
  generateNonce rr = (n, Some e) -> rd_err rr = Some e.
Proof.
  unfold generateNonce, rand_Read. destruct (rd_err rr) as [e'|]; intros H.
  - inversion H. reflexivity.
  - discriminate H.
Qed.

(** The two ways the process dies inside [runClient]. *)
Lemma runClient_exit_causes (w : World) (host a : string) (code : Z) :
  result (runClient w host a) = Exited code ->
  (wantNameSpace w = true /\ exists e, rd_err (w_rand w) = Some e) \/
  w_RequestPty w <> None.
Proof.
  unfold runClient.
  destruct (config w (keyFile (w_flags w))) as [c|err]; [|discriminate].
  destruct (dial w _ _ c) as [err|]; [discriminate|]. cbv zeta.
  assert (Hshell : forall cmd0 envs,
            result (shell w cmd0 envs) = Exited code -> w_RequestPty w <> None).
  { intros cmd0 envs H. pose proof (shell_has_shape w cmd0 envs) as Hs.
    destruct (shell w cmd0 envs) as [tr o]. cbn [result snd] in H. subst o.
    inversion Hs. assumption. }
  destruct (wantNameSpace w) eqn:Hns.
  - unfold namespace.
    destruct (w_ParseDuration w (timeout9P (w_flags w))) as [d|err]; [|discriminate].
    destruct (w_Listen w) as [addr|err]; [|discriminate].
    rewrite Split_length_pos.
    destruct (generateNonce (w_rand w)) as [n [e|]] eqn:Hn.
    + intros _. left. split; [reflexivity|]. exists e.
      exact (generateNonce_error _ n e Hn).
    + rewrite !result_bind. cbn [emit ret result snd]. intros H. right.
      exact (Hshell _ _ H).
  - rewrite result_bind. cbn [ret result snd]. intros H. right. exact (Hshell _ _ H).
Qed.

(** X22. Past the argument check and the terminal snapshot, [main] leaves out
    its terminal restoration only when the process died on the way, and
    that has two causes only: the random source failed with namespace mode
    on, or the pseudo-terminal request was refused. *)
Theorem restoration_skipped_only_on_fatal (w : World) (host : string)
    (rest : list string) :
  w_args w = host :: rest -> w_GetTermios w = None ->
  ~ In EvSetTermios (trace (main w)) ->
  (wantNameSpace w = true /\ exists e, rd_err (w_rand w) = Some e) \/
  w_RequestPty w <> None.
Proof.
  intros Ha Hg Hn. rewrite (main_unfold w host rest Ha Hg) in Hn. cbv zeta in Hn.
  cbn [trace fst] in Hn.
  destruct (result (runClient w host (command w rest))) as [err|code] eqn:Hr.
  - exfalso. apply Hn. right. apply in_or_app. right. apply in_or_app. right. now left.
  - exact (runClient_exit_causes w host _ code Hr).
Qed.

Lemma restoration_skipped_only_on_fatal_witness :
  (wantNameSpace nopty_world = true /\
   exists e, rd_err (w_rand nopty_world) = Some e) \/
  w_RequestPty nopty_world <> None.
Proof.
  apply (restoration_skipped_only_on_fatal nopty_world "testhost" [] eq_refl eq_refl).
  cbn. intuition discriminate.
Defined.
